(** * KAMREEN timer engine: global alarm, tank counters, filter alert,
      persistence and rehydration.

    Shallow embedding of the later revision of the home screen
    (the one with [lastPauseTimestamp], [filterClicks] and
    [filterStartEvents]).  React state variables become fields of one
    [State] record; every handler, interval callback and render effect is
    a function [State -> State * list Action], where the list records, in
    program order, the state writes and the calls made to the vibration,
    audio and dialog collaborators.

    Conventions.
    - JavaScript numbers are modelled by [Z]: every number the engine
      itself computes is an integer (seconds, click counts, epoch
      milliseconds).
    - Audio calls are asynchronous and wrapped in try/catch in the source;
      the model follows the path on which they succeed and complete in
      call order, before the next event. An asynchronous sound function
      called without await runs at the call up to its first pending await;
      the alarm effect, whose following statements matter, places the rest
      after them.
    - A state updater passed to a setter is applied at once to the current
      state (events are processed one at a time); a local variable that an
      updater assigns is still unassigned for the statements that follow
      the setter call. *)

From Stdlib Require Import ZArith List Bool String Lia ZifyBool.
From Stdlib Require Import Ascii DecimalString.
Import ListNotations.
Open Scope Z_scope.

(** ** Constants *)

Definition COUNTER_COUNT : nat := 5.
Definition GLOBAL_ALARM_INTERVAL_SECONDS : Z := 4 * 60 * 60.

(** ** Data model *)

Record CounterState := mkCounter {
  id : Z;
  elapsed : Z;
  isRunning : bool;
  isEmpty : bool;
  startCount : Z;
  lastPauseTimestamp : option Z;
  filterClicks : Z
}.

(** The React state of [HomeScreen], plus the two sound refs
    ([true] when the ref holds a loaded sound). *)
Record State := mkState {
  globalElapsed : Z;
  globalRunning : bool;
  counters : list CounterState;
  isHydrated : bool;
  filterStartEvents : Z;
  alarmSoundRef : bool;
  filterSoundRef : bool
}.

(** [createInitialCounters]: [Array.from({length: COUNTER_COUNT}, ...)]. *)
Definition createInitialCounters : list CounterState :=
  map (fun index : nat =>
         {| id := Z.of_nat index + 1;
            elapsed := 0;
            isRunning := false;
            isEmpty := true;
            startCount := 0;
            lastPauseTimestamp := None;
            filterClicks := 0 |})
      (seq 0 COUNTER_COUNT).

(** The [useState] initial values and empty refs. *)
Definition initialState : State :=
  {| globalElapsed := 0;
     globalRunning := false;
     counters := createInitialCounters;
     isHydrated := false;
     filterStartEvents := 0;
     alarmSoundRef := false;
     filterSoundRef := false |}.

(** ** Observable actions *)

Inductive SoundKind := AlarmSound | FilterSound.

Inductive Dialog :=
| DlgFiltration
| DlgAlarm
| DlgActivation
| DlgResetAll
| DlgServiceInactive.

Inductive StateVar :=
| VarGlobalElapsed
| VarGlobalRunning
| VarCounters
| VarIsHydrated
| VarFilterStartEvents.

(** One [Alert.alert] call: which dialog, its button labels, and the
    [cancelable] option when one is passed. *)
Record AlertCall := mkAlert {
  dialog : Dialog;
  buttons : list string;
  cancelable : option bool
}.

Inductive Action :=
| Vibrate (pattern : list Z)
| SoundStop (k : SoundKind)
| SoundUnload (k : SoundKind)
| SoundCreate (k : SoundKind) (isLooping : bool)
| SoundSetVolume (k : SoundKind) (volume : Z)
| SoundPlay (k : SoundKind)
| AlertShow (a : AlertCall)
| SetState (v : StateVar).

(** ** Handlers as state transformers with an action log *)

Definition Handler := State -> State * list Action.

Definition skip : Handler := fun s => (s, []).

Definition andThen (h1 h2 : Handler) : Handler :=
  fun s => let (s1, l1) := h1 s in
           let (s2, l2) := h2 s1 in
           (s2, l1 ++ l2).

Notation "h1 ;; h2" := (andThen h1 h2) (at level 61, right associativity).

Definition emit (a : Action) : Handler := fun s => (s, [a]).

Definition setGlobalElapsed (f : Z -> Z) : Handler :=
  fun s => ({| globalElapsed := f (globalElapsed s);
               globalRunning := globalRunning s;
               counters := counters s;
               isHydrated := isHydrated s;
               filterStartEvents := filterStartEvents s;
               alarmSoundRef := alarmSoundRef s;
               filterSoundRef := filterSoundRef s |},
            [SetState VarGlobalElapsed]).

Definition setGlobalRunning (b : bool) : Handler :=
  fun s => ({| globalElapsed := globalElapsed s;
               globalRunning := b;
               counters := counters s;
               isHydrated := isHydrated s;
               filterStartEvents := filterStartEvents s;
               alarmSoundRef := alarmSoundRef s;
               filterSoundRef := filterSoundRef s |},
            [SetState VarGlobalRunning]).

Definition setCounters (f : list CounterState -> list CounterState) : Handler :=
  fun s => ({| globalElapsed := globalElapsed s;
               globalRunning := globalRunning s;
               counters := f (counters s);
               isHydrated := isHydrated s;
               filterStartEvents := filterStartEvents s;
               alarmSoundRef := alarmSoundRef s;
               filterSoundRef := filterSoundRef s |},
            [SetState VarCounters]).

Definition setIsHydrated (b : bool) : Handler :=
  fun s => ({| globalElapsed := globalElapsed s;
               globalRunning := globalRunning s;
               counters := counters s;
               isHydrated := b;
               filterStartEvents := filterStartEvents s;
               alarmSoundRef := alarmSoundRef s;
               filterSoundRef := filterSoundRef s |},
            [SetState VarIsHydrated]).

Definition putFilterStartEvents (n : Z) : Handler :=
  fun s => ({| globalElapsed := globalElapsed s;
               globalRunning := globalRunning s;
               counters := counters s;
               isHydrated := isHydrated s;
               filterStartEvents := n;
               alarmSoundRef := alarmSoundRef s;
               filterSoundRef := filterSoundRef s |},
            [SetState VarFilterStartEvents]).

Definition putSoundRef (k : SoundKind) (b : bool) : Handler :=
  fun s => ({| globalElapsed := globalElapsed s;
               globalRunning := globalRunning s;
               counters := counters s;
               isHydrated := isHydrated s;
               filterStartEvents := filterStartEvents s;
               alarmSoundRef := match k with AlarmSound => b | FilterSound => alarmSoundRef s end;
               filterSoundRef := match k with FilterSound => b | AlarmSound => filterSoundRef s end |},
            []).

Definition soundRef (k : SoundKind) (s : State) : bool :=
  match k with
  | AlarmSound => alarmSoundRef s
  | FilterSound => filterSoundRef s
  end.

(** ** Sound helpers *)

(** [stopAlarmSound] / [stopFilterSound]: nothing when the ref is empty,
    otherwise stop, unload, clear the ref. *)
Definition stopSound (k : SoundKind) : Handler :=
  fun s =>
    if negb (soundRef k s) then skip s
    else (emit (SoundStop k) ;; emit (SoundUnload k) ;; putSoundRef k false) s.

Definition stopAlarmSound : Handler := stopSound AlarmSound.
Definition stopFilterSound : Handler := stopSound FilterSound.

(** [playAlarmSound] / [playFilterSound]. *)
Definition playSound (k : SoundKind) : Handler :=
  stopSound k ;;
  emit (SoundCreate k true) ;;
  putSoundRef k true ;;
  emit (SoundSetVolume k 1) ;;
  emit (SoundPlay k).

Definition playAlarmSound : Handler := playSound AlarmSound.
Definition playFilterSound : Handler := playSound FilterSound.

(** The part of [playAlarmSound] that runs at the call: the function is
    entered, [await stopAlarmSound()] enters [stopAlarmSound], which calls
    [stopAsync] on a loaded sound and awaits it, or returns at once when
    the ref is empty. *)
Definition playSoundCall (k : SoundKind) : Handler :=
  fun s =>
    if negb (soundRef k s) then skip s
    else emit (SoundStop k) s.

(** The rest of it, resumed after the awaits: the end of [stopAlarmSound]
    on a loaded sound, then create, keep in the ref, set the volume,
    play. *)
Definition playSoundResume (k : SoundKind) : Handler :=
  (fun s =>
     if negb (soundRef k s) then skip s
     else (emit (SoundUnload k) ;; putSoundRef k false) s) ;;
  emit (SoundCreate k true) ;;
  putSoundRef k true ;;
  emit (SoundSetVolume k 1) ;;
  emit (SoundPlay k).

Definition filterAlertDialog : AlertCall :=
  {| dialog := DlgFiltration; buttons := ["OK"%string]; cancelable := Some false |}.

Definition alarmDialog : AlertCall :=
  {| dialog := DlgAlarm; buttons := ["OK"%string]; cancelable := Some false |}.

Definition activationDialog : AlertCall :=
  {| dialog := DlgActivation; buttons := ["Non"%string; "Oui"%string]; cancelable := None |}.

Definition resetAllDialog : AlertCall :=
  {| dialog := DlgResetAll; buttons := ["Annuler"%string; "Oui"%string]; cancelable := None |}.

Definition serviceInactiveDialog : AlertCall :=
  {| dialog := DlgServiceInactive; buttons := []; cancelable := None |}.

Definition triggerFilterAlert : Handler :=
  emit (Vibrate [0; 400; 150; 400]) ;;
  playFilterSound ;;
  emit (AlertShow filterAlertDialog).

Definition isAnyCounterRunning (s : State) : bool :=
  existsb isRunning (counters s).

(** ** Interval callbacks and the alarm effect *)

(** Body of the one-second global interval. *)
Definition globalTick : Handler :=
  setGlobalElapsed (fun prev =>
    if prev + 1 >=? GLOBAL_ALARM_INTERVAL_SECONDS
    then GLOBAL_ALARM_INTERVAL_SECONDS
    else prev + 1).

Definition tickCounter (counter : CounterState) : CounterState :=
  if negb (isRunning counter) then counter
  else {| id := id counter;
          elapsed := elapsed counter + 1;
          isRunning := isRunning counter;
          isEmpty := false;
          startCount := startCount counter;
          lastPauseTimestamp := lastPauseTimestamp counter;
          filterClicks := filterClicks counter |}.

(** Body of the one-second counter interval. *)
Definition counterTick : Handler :=
  setCounters (map tickCounter).

(** The render effect watching [globalElapsed]. [playAlarmSound()] is
    called without await: its first part runs at the call, then
    [setGlobalElapsed(0)] and the registration of the zero-delay timeout,
    then the awaited rest of [playAlarmSound], then the timeout's dialog. *)
Definition alarmEffect : Handler :=
  fun s =>
    if negb (isHydrated s) || negb (globalRunning s) then skip s
    else if globalElapsed s <? GLOBAL_ALARM_INTERVAL_SECONDS then skip s
    else (emit (Vibrate [0; 500; 200; 500]) ;;
          playSoundCall AlarmSound ;;
          setGlobalElapsed (fun _ => 0) ;;
          playSoundResume AlarmSound ;;
          emit (AlertShow alarmDialog)) s.

(** [onPress] of the alarm dialog's OK button. *)
Definition alarmDialogOk : Handler := stopAlarmSound.

(** [onPress] of the filter dialog's OK button. *)
Definition filterDialogOk : Handler := stopFilterSound.

(** ** Intents *)

Definition handleActivateGlobal : Handler :=
  fun s =>
    if globalRunning s then skip s
    else emit (AlertShow activationDialog) s.

(** [onPress] of "Oui" in the activation dialog. *)
Definition activationYes : Handler :=
  setGlobalElapsed (fun _ => 0) ;;
  setGlobalRunning true.

Definition handleConfirmResetAll : Handler :=
  emit (AlertShow resetAllDialog).

(** [onPress] of "Oui" in the reset dialog. *)
Definition resetAllYes : Handler :=
  stopAlarmSound ;;
  stopFilterSound ;;
  setGlobalRunning false ;;
  setGlobalElapsed (fun _ => 0) ;;
  setCounters (fun _ => createInitialCounters) ;;
  putFilterStartEvents 0.

(** The counter found by [counters.find((c) => c.id === i)]. *)
Definition findCounter (i : Z) (cs : list CounterState) : option CounterState :=
  find (fun c => id c =? i) cs.

(** [allowFilterIncrementPrecomputed], from the counters of the current
    render and the first clock reading. *)
Definition allowFilterIncrementPrecomputed (i now : Z) (s : State) : bool :=
  match findCounter i (counters s) with
  | None => false
  | Some target =>
      negb (isRunning target) &&
      (isEmpty target ||
       match lastPauseTimestamp target with
       | None => false
       | Some t => now - t >=? 30000
       end)
  end.

(** The [map] callback of [handleToggleCounter]; [pauseNow] is the clock
    reading taken inside the updater. *)
Definition toggleCounter (i pauseNow : Z) (allow : bool) (counter : CounterState)
  : CounterState :=
  if negb (id counter =? i) then counter
  else if isRunning counter then
    {| id := id counter;
       elapsed := elapsed counter;
       isRunning := false;
       isEmpty := isEmpty counter;
       startCount := startCount counter;
       lastPauseTimestamp := Some pauseNow;
       filterClicks := filterClicks counter |}
  else
    {| id := id counter;
       elapsed := elapsed counter;
       isRunning := true;
       isEmpty := false;
       startCount := 0;
       lastPauseTimestamp := None;
       filterClicks := if allow then filterClicks counter + 1
                       else filterClicks counter |}.

(** The updater given to [setFilterStartEvents]. *)
Definition bumpFilterStartEvents : Handler :=
  fun s =>
    let next := filterStartEvents s + 1 in
    if next >=? 2 then (triggerFilterAlert ;; putFilterStartEvents 0) s
    else putFilterStartEvents next s.

Definition handleToggleCounter (i now pauseNow : Z) : Handler :=
  fun s =>
    if negb (globalRunning s) then emit (AlertShow serviceInactiveDialog) s
    else
      let allow := allowFilterIncrementPrecomputed i now s in
      (setCounters (map (toggleCounter i pauseNow allow)) ;;
       (if allow then bumpFilterStartEvents else skip)) s.

Definition clearCounter (i : Z) (counter : CounterState) : CounterState :=
  if negb (id counter =? i) then counter
  else {| id := id counter;
          elapsed := 0;
          isRunning := false;
          isEmpty := true;
          startCount := 0;
          lastPauseTimestamp := None;
          filterClicks := 0 |}.

Definition handleClearCounter (i : Z) : Handler :=
  setCounters (map (clearCounter i)).

(** ** Events of the engine

    The two intervals exist only while their effect's guard holds
    ([isHydrated] and, respectively, [globalRunning] or some running
    counter), so a tick delivered when the guard is false does nothing.
    Dialog buttons are events of their own; the model does not track which
    dialogs are open, so it allows every order of presses. *)

Inductive Event :=
| EvGlobalTick
| EvCounterTick
| EvAlarmEffect
| EvActivate
| EvActivationYes
| EvConfirmResetAll
| EvResetAllYes
| EvToggleCounter (i now pauseNow : Z)
| EvClearCounter (i : Z)
| EvAlarmDialogOk
| EvFilterDialogOk.

Definition step (e : Event) : Handler :=
  match e with
  | EvGlobalTick =>
      fun s => if isHydrated s && globalRunning s then globalTick s else skip s
  | EvCounterTick =>
      fun s => if isHydrated s && isAnyCounterRunning s then counterTick s else skip s
  | EvAlarmEffect => alarmEffect
  | EvActivate => handleActivateGlobal
  | EvActivationYes => activationYes
  | EvConfirmResetAll => handleConfirmResetAll
  | EvResetAllYes => resetAllYes
  | EvToggleCounter i now pauseNow => handleToggleCounter i now pauseNow
  | EvClearCounter i => handleClearCounter i
  | EvAlarmDialogOk => alarmDialogOk
  | EvFilterDialogOk => filterDialogOk
  end.

(** State after a sequence of events, oldest first. *)
Definition run (evs : list Event) (s : State) : State :=
  fold_left (fun st e => fst (step e st)) evs s.

(** ** Persisted JSON *)

#[warnings="-register-all"]
Inductive json :=
| JNull
| JBool (b : bool)
| JNum (n : Z)
| JStr (s : string)
| JArr (items : list json)
| JObj (fields : list (string * json)).

Fixpoint assoc (key : string) (fields : list (string * json)) : option json :=
  match fields with
  | [] => None
  | (k, v) :: rest => if String.eqb k key then Some v else assoc key rest
  end.

(** Property read [j.key] on a value that is not [null]; [None] is
    JavaScript's [undefined]. *)
Definition getProp (j : json) (key : string) : option json :=
  match j with
  | JObj fields => assoc key fields
  | _ => None
  end.

(** [typeof v === "number"] *)
Definition asNumber (v : option json) : option Z :=
  match v with
  | Some (JNum n) => Some n
  | _ => None
  end.

(** [typeof v === "boolean"] *)
Definition asBoolean (v : option json) : option bool :=
  match v with
  | Some (JBool b) => Some b
  | _ => None
  end.

(** [typeof v === "number" && v >= 0] *)
Definition asNonNegative (v : option json) : option Z :=
  match asNumber v with
  | Some n => if n >=? 0 then Some n else None
  | None => None
  end.

(** [JSON.parse(JSON.stringify(payload))] for the payload of the persist
    effect. *)
Definition counterJson (c : CounterState) : json :=
  JObj [ ("id"%string, JNum (id c));
         ("elapsed"%string, JNum (elapsed c));
         ("isRunning"%string, JBool (isRunning c));
         ("isEmpty"%string, JBool (isEmpty c));
         ("startCount"%string, JNum (startCount c));
         ("lastPauseTimestamp"%string,
            match lastPauseTimestamp c with
            | None => JNull
            | Some t => JNum t
            end);
         ("filterClicks"%string, JNum (filterClicks c)) ].

Definition payload (s : State) : json :=
  JObj [ ("globalElapsed"%string, JNum (globalElapsed s));
         ("globalRunning"%string, JBool (globalRunning s));
         ("counters"%string, JArr (map counterJson (counters s)));
         ("filterStartEvents"%string, JNum (filterStartEvents s)) ].

(** The persist effect: what is written under the storage key, if
    anything. *)
Definition persistEffect (s : State) : option json :=
  if negb (isHydrated s) then None else Some (payload s).

(** The four persisted components of a state. *)
Definition snapshot (s : State) : Z * bool * list CounterState * Z :=
  (globalElapsed s, globalRunning s, counters s, filterStartEvents s).

(** ** Rehydration *)

(** What [AsyncStorage.getItem] followed by [JSON.parse] can give. *)
Inductive Stored :=
| StoredNothing            (* null or the empty string: [if (stored)] fails *)
| StoredUnreadable         (* [getItem] rejects *)
| StoredCorrupt            (* [JSON.parse] throws *)
| StoredJson (parsed : json).

Inductive Lookup :=
| Found (persisted : json)
| Missing
| Threw.

(** [parsed.counters.find((item) => item.id === initial.id)]: reading
    [.id] of a [null] item throws. *)
Fixpoint findPersisted (items : list json) (i : Z) : Lookup :=
  match items with
  | [] => Missing
  | JNull :: _ => Threw
  | item :: rest =>
      match asNumber (getProp item "id") with
      | Some n => if n =? i then Found item else findPersisted rest i
      | None => findPersisted rest i
      end
  end.

Definition orElse {A} (o : option A) (d : A) : A :=
  match o with
  | Some a => a
  | None => d
  end.

Definition hydrateCounter (persisted : json) (initial : CounterState) : CounterState :=
  {| id := id initial;
     elapsed := orElse (asNonNegative (getProp persisted "elapsed")) (elapsed initial);
     isRunning := orElse (asBoolean (getProp persisted "isRunning")) (isRunning initial);
     isEmpty := orElse (asBoolean (getProp persisted "isEmpty")) (isEmpty initial);
     startCount := orElse (asNonNegative (getProp persisted "startCount")) (startCount initial);
     lastPauseTimestamp :=
       match asNumber (getProp persisted "lastPauseTimestamp") with
       | Some t => Some t
       | None => lastPauseTimestamp initial
       end;
     filterClicks := orElse (asNonNegative (getProp persisted "filterClicks")) (filterClicks initial) |}.

(** The updater given to [setCounters] during rehydration; [None] when the
    [find] callback throws. *)
Fixpoint hydrateCounters (items : list json) (current : list CounterState)
  : option (list CounterState) :=
  match current with
  | [] => Some []
  | initial :: rest =>
      match findPersisted items (id initial) with
      | Threw => None
      | Missing =>
          option_map (cons initial) (hydrateCounters items rest)
      | Found persisted =>
          option_map (cons (hydrateCounter persisted initial))
                     (hydrateCounters items rest)
      end
  end.

(** Result of the hydration effect: the restored state, or the counters
    updater raised a TypeError (what React then does with the component is
    not modelled). *)
Inductive Outcome :=
| Restored (s : State)
| UpdaterThrew.

Definition applyWhen {A} (o : option A) (h : A -> Handler) : Handler :=
  match o with
  | Some a => h a
  | None => skip
  end.

(** [setCounters] with the rehydration updater; [None] when the updater
    throws. Not an array: no call at all. *)
Definition restoreCounters (parsed : json) (s : State) : option Handler :=
  match getProp parsed "counters" with
  | Some (JArr items) =>
      match hydrateCounters items (counters s) with
      | Some cs => Some (setCounters (fun _ => cs))
      | None => None
      end
  | _ => Some skip
  end.

Definition hydrate (stored : Stored) (s : State) : Outcome :=
  match stored with
  | StoredNothing | StoredUnreadable | StoredCorrupt | StoredJson JNull =>
      Restored (fst (setIsHydrated true s))
  | StoredJson parsed =>
      match restoreCounters parsed s with
      | None => UpdaterThrew
      | Some restore =>
          Restored (fst ((applyWhen (asNumber (getProp parsed "globalElapsed"))
                                    (fun n => setGlobalElapsed (fun _ => n)) ;;
                          applyWhen (asBoolean (getProp parsed "globalRunning"))
                                    setGlobalRunning ;;
                          restore ;;
                          applyWhen (asNonNegative (getProp parsed "filterStartEvents"))
                                    putFilterStartEvents ;;
                          setIsHydrated true) s))
      end
  end.

(** First launch: nothing stored. *)
Definition freshState : State :=
  match hydrate StoredNothing initialState with
  | Restored s => s
  | UpdaterThrew => initialState
  end.

(** * Specification vocabulary and sample states *)

(** What a stop call logs, depending on the ref. *)
Definition stopLog (k : SoundKind) (s : State) : list Action :=
  if soundRef k s then [SoundStop k; SoundUnload k] else [].

(** What one tick does to one counter: a running counter gains one second
    (and is marked non-empty), every other field kept; a counter that is
    not running is returned as it is. *)
Definition tickedFrom (c c' : CounterState) : Prop :=
  (isRunning c = true ->
     elapsed c' = elapsed c + 1 /\
     id c' = id c /\
     isRunning c' = true /\
     isEmpty c' = false /\
     startCount c' = startCount c /\
     lastPauseTimestamp c' = lastPauseTimestamp c /\
     filterClicks c' = filterClicks c) /\
  (isRunning c = false -> c' = c).

(** Service active, counter 4 running, counter 1 paused after one tick. *)
Definition onePausedOneRunning : State :=
  run [EvActivationYes; EvToggleCounter 1 0 0; EvToggleCounter 4 10 10;
       EvCounterTick; EvToggleCounter 1 20 20] freshState.

(** What the alarm effect logs when it fires. *)
Definition alarmLog (s : State) : list Action :=
  [Vibrate [0; 500; 200; 500]] ++
  (if alarmSoundRef s then [SoundStop AlarmSound] else []) ++
  [SetState VarGlobalElapsed] ++
  (if alarmSoundRef s then [SoundUnload AlarmSound] else []) ++
  [SoundCreate AlarmSound true; SoundSetVolume AlarmSound 1; SoundPlay AlarmSound;
   AlertShow alarmDialog].








(** Service active, one second before the alarm interval. *)
Definition aboutToAlarm : State :=
  {| globalElapsed := GLOBAL_ALARM_INTERVAL_SECONDS - 1;
     globalRunning := true;
     counters := createInitialCounters;
     isHydrated := true;
     filterStartEvents := 0;
     alarmSoundRef := false;
     filterSoundRef := false |}.

(** Hydrated, and the global timer within its bounds. *)
Definition globalInRange (s : State) : Prop :=
  isHydrated s = true /\
  0 <= globalElapsed s <= GLOBAL_ALARM_INTERVAL_SECONDS.

(** The event is a counter start that counts for the filter alert. *)
Definition qualifyingStart (e : Event) (s : State) : bool :=
  match e with
  | EvToggleCounter i now _ =>
      globalRunning s && allowFilterIncrementPrecomputed i now s
  | _ => false
  end.

(** What [triggerFilterAlert] logs. *)
Definition filterAlertLog (s : State) : list Action :=
  [Vibrate [0; 400; 150; 400]] ++
  stopLog FilterSound s ++
  [SoundCreate FilterSound true; SoundSetVolume FilterSound 1;
   SoundPlay FilterSound;
   AlertShow filterAlertDialog].

(** The log contains the filter dialog. *)
Definition filterAlertShown (log : list Action) : Prop :=
  In (AlertShow filterAlertDialog) log.

(** The accumulator holds 0 or 1. *)
Definition accumulatorInCycle (s : State) : Prop :=
  filterStartEvents s = 0 \/ filterStartEvents s = 1.

(** A start of [target] at time [now] qualifies: the counter was empty,
    or it was paused and at least 30000 ms have passed since
    [lastPauseTimestamp]. *)
Definition qualifies (now : Z) (target : CounterState) : Prop :=
  isEmpty target = true \/
  (isEmpty target = false /\
   exists t, lastPauseTimestamp target = Some t /\ 30000 <= now - t).

(** The claim as the specification words it: a qualifying start adds
    exactly 1 to the counter's [filterClicks] and exactly 1 to
    [filterStartEvents]. *)
Definition qualifyingStartAddsOneToBoth (s : State) (i now pauseNow : Z) : Prop :=
  forall target,
    globalRunning s = true ->
    findCounter i (counters s) = Some target ->
    isRunning target = false ->
    qualifies now target ->
    let s' := fst (handleToggleCounter i now pauseNow s) in
    (exists target',
        findCounter i (counters s') = Some target' /\
        filterClicks target' = filterClicks target + 1) /\
    filterStartEvents s' = filterStartEvents s + 1.

(** Service active, counter 1 started once: the accumulator holds 1. *)
Definition oneStarted : State :=
  run [EvActivationYes; EvToggleCounter 1 0 0] freshState.

(** Counter 1 started at time 0, ticked, paused at time 5000. *)
Definition pausedAt5000 : State :=
  run [EvActivationYes; EvToggleCounter 1 0 0; EvCounterTick;
       EvToggleCounter 1 5000 5000] freshState.

(** The counter has nonzero elapsed time or is running. *)
Definition busy (c : CounterState) : Prop :=
  elapsed c <> 0 \/ isRunning c = true.

(** Exactly one of: is empty, is busy. *)
Definition exactlyOne (c : CounterState) : Prop :=
  (isEmpty c = true /\ ~ busy c) \/ (isEmpty c = false /\ busy c).

(** At most one of them: an empty counter has no elapsed time and is not
    running. *)
Definition emptyIsIdle (c : CounterState) : Prop :=
  isEmpty c = true -> elapsed c = 0 /\ isRunning c = false.

(** The counter rebuilt from the record the engine wrote for [c]. *)
Definition reloaded (c initial : CounterState) : CounterState :=
  {| id := id initial;
     elapsed := if elapsed c >=? 0 then elapsed c else elapsed initial;
     isRunning := isRunning c;
     isEmpty := isEmpty c;
     startCount := if startCount c >=? 0 then startCount c else startCount initial;
     lastPauseTimestamp :=
       match lastPauseTimestamp c with
       | Some t => Some t
       | None => lastPauseTimestamp initial
       end;
     filterClicks := if filterClicks c >=? 0 then filterClicks c
                     else filterClicks initial |}.

(** The rehydration updater applied to records the engine wrote for [pcs]. *)
Definition reloadAll (pcs current : list CounterState) : list CounterState :=
  map (fun initial =>
         match findCounter (id initial) pcs with
         | Some c => reloaded c initial
         | None => initial
         end) current.

(** A stored object whose numeric fields are all -5. *)
Definition negativeEverywhere : json :=
  JObj [ ("globalElapsed"%string, JNum (-5));
         ("filterStartEvents"%string, JNum (-5));
         ("counters"%string,
            JArr [JObj [ ("id"%string, JNum 1);
                         ("elapsed"%string, JNum (-5));
                         ("startCount"%string, JNum (-5));
                         ("filterClicks"%string, JNum (-5)) ]]) ].

(** No negative second or click count. *)
Definition nonNegativeFields (c : CounterState) : Prop :=
  0 <= elapsed c /\ 0 <= startCount c /\ 0 <= filterClicks c.

(** What every state of a hydrated engine satisfies: the five counters
    with identities 1..5 in order, no negative count, a non-negative
    accumulator. *)
Definition wellFormed (s : State) : Prop :=
  isHydrated s = true /\
  map id (counters s) = [1; 2; 3; 4; 5] /\
  Forall nonNegativeFields (counters s) /\
  0 <= filterStartEvents s.

(** * The rest of the screen logic *)

(** [value.toString()] for an integer. *)
Definition toString (value : Z) : string :=
  NilZero.string_of_int (Z.to_int value).

(** [s.padStart(targetLength, "0")] *)
Definition padStart (targetLength : nat) (s : string) : string :=
  String.concat "" (repeat "0"%string (targetLength - String.length s)) ++ s.

(** [formatTime]: [Math.floor] of a quotient is [Z.div]; JavaScript's [%]
    truncates towards zero, which is [Z.rem]. *)
Definition formatTime (totalSeconds : Z) : string :=
  let hours := totalSeconds / 3600 in
  let minutes := Z.rem totalSeconds 3600 / 60 in
  let seconds := Z.rem totalSeconds 60 in
  let format := fun value => padStart 2 (toString value) in
  (format hours ++ ":" ++ format minutes ++ ":" ++ format seconds)%string.

(** [totalFilterClicks]: [counters.reduce((sum, c) => sum + c.filterClicks, 0)]. *)
Definition totalFilterClicks (s : State) : Z :=
  fold_left (fun sum counter => sum + filterClicks counter) (counters s) 0.

(** The delay shown on a counter's debug line: a number of seconds
    (rendered followed by the letter s) or a dash. *)
Inductive RemainingDisplay :=
| RemainingSeconds (n : Z)
| RemainingDash.

(** [secondsRemainingDisplay] as computed in the debug panel. *)
Definition secondsRemainingDisplay (debugNow : Z) (counter : CounterState)
  : RemainingDisplay :=
  if negb (isRunning counter) then
    match lastPauseTimestamp counter with
    | Some t =>
        let elapsed := (debugNow - t) / 1000 in
        let remaining := Z.max 0 (30 - elapsed) in
        RemainingSeconds remaining
    | None =>
        if isEmpty counter then RemainingSeconds 30 else RemainingDash
    end
  else RemainingSeconds 30.

(** Everything logged along a sequence of events, oldest first. *)
Fixpoint runLog (evs : list Event) (s : State) : list Action :=
  match evs with
  | [] => []
  | e :: rest => snd (step e s) ++ runLog rest (fst (step e s))
  end.

Definition sameKind (k k' : SoundKind) : bool :=
  match k, k' with
  | AlarmSound, AlarmSound | FilterSound, FilterSound => true
  | _, _ => false
  end.

(** Replays the audio calls of a log for one kind of sound, starting with
    the sound loaded or not: [None] when a sound is created while one is
    loaded, or stopped, unloaded, tuned or played while none is loaded;
    otherwise whether a sound is loaded at the end. *)
Fixpoint soundTrack (k : SoundKind) (log : list Action) (loaded : bool)
  : option bool :=
  match log with
  | [] => Some loaded
  | SoundCreate k' _ :: rest =>
      if sameKind k k'
      then (if loaded then None else soundTrack k rest true)
      else soundTrack k rest loaded
  | SoundUnload k' :: rest =>
      if sameKind k k'
      then (if loaded then soundTrack k rest false else None)
      else soundTrack k rest loaded
  | SoundStop k' :: rest | SoundSetVolume k' _ :: rest | SoundPlay k' :: rest =>
      if sameKind k k'
      then (if loaded then soundTrack k rest loaded else None)
      else soundTrack k rest loaded
  | _ :: rest => soundTrack k rest loaded
  end.

(** What holds of each counter in a state the engine reaches from first
    launch. *)
Definition coherent (c : CounterState) : Prop :=
  startCount c = 0 /\
  0 <= elapsed c /\
  (isRunning c = true -> isEmpty c = false /\ lastPauseTimestamp c = None) /\
  (isEmpty c = true ->
     elapsed c = 0 /\ filterClicks c = 0 /\ lastPauseTimestamp c = None) /\
  (isEmpty c = false -> 1 <= filterClicks c) /\
  (isRunning c = false -> isEmpty c = false -> lastPauseTimestamp c <> None).

(** The engine-level invariant: five counters 1..5, each coherent, and a
    counter runs only while the service does. *)
Definition engineCoherent (s : State) : Prop :=
  map id (counters s) = [1; 2; 3; 4; 5] /\
  Forall coherent (counters s) /\
  (isAnyCounterRunning s = true -> globalRunning s = true).

(** One counter after [n] ticks of the counter interval. *)
Definition tickedTimes (n : nat) (c c' : CounterState) : Prop :=
  (isRunning c = true ->
     elapsed c' = elapsed c + Z.of_nat n /\ isRunning c' = true) /\
  (isRunning c = false -> c' = c).

(** Counters other than [i] are the same. *)
Definition othersUntouched (i : Z) (c c' : CounterState) : Prop :=
  id c' = id c /\ (id c <> i -> c' = c).

(** No element of a stored array is [null]. *)
Definition noNullItem (items : list json) : Prop :=
  Forall (fun item => item <> JNull) items.

(** * The earlier revision of the screen

    The same engine before [lastPauseTimestamp], [filterClicks] and
    [filterStartEvents] were introduced: the filter reminder is counted per
    counter in [startCount], and the alarm stops the service until it is
    acknowledged. Same conventions as above; it stores under the same
    storage key. *)

Module Earlier.

Record CounterState := mkCounter {
  id : Z;
  elapsed : Z;
  isRunning : bool;
  isEmpty : bool;
  startCount : Z
}.

Record State := mkState {
  globalElapsed : Z;
  globalRunning : bool;
  counters : list CounterState;
  isHydrated : bool;
  alarmSoundRef : bool
}.

Definition createInitialCounters : list CounterState :=
  map (fun index : nat =>
         {| id := Z.of_nat index + 1;
            elapsed := 0;
            isRunning := false;
            isEmpty := true;
            startCount := 0 |})
      (seq 0 COUNTER_COUNT).

Definition initialState : State :=
  {| globalElapsed := 0;
     globalRunning := false;
     counters := createInitialCounters;
     isHydrated := false;
     alarmSoundRef := false |}.

Inductive Dialog :=
| DlgAlarm
| DlgActivation
| DlgResetAll
| DlgServiceInactive
| DlgFilterReminder (counterId : Z).

Inductive StateVar :=
| VarGlobalElapsed
| VarGlobalRunning
| VarCounters
| VarIsHydrated.

Record AlertCall := mkAlert {
  dialog : Dialog;
  buttons : list string;
  cancelable : option bool
}.

Inductive Action :=
| Vibrate (pattern : list Z)
| SoundStop
| SoundUnload
| SoundCreate (isLooping : bool)
| SoundSetVolume (volume : Z)
| SoundPlay
| AlertShow (a : AlertCall)
| SetState (v : StateVar).

Definition Handler := State -> State * list Action.

Definition skip : Handler := fun s => (s, []).

Definition andThen (h1 h2 : Handler) : Handler :=
  fun s => let (s1, l1) := h1 s in
           let (s2, l2) := h2 s1 in
           (s2, l1 ++ l2).

Notation "h1 >> h2" := (andThen h1 h2) (at level 61, right associativity).

Definition emit (a : Action) : Handler := fun s => (s, [a]).

Definition setGlobalElapsed (f : Z -> Z) : Handler :=
  fun s => ({| globalElapsed := f (globalElapsed s);
               globalRunning := globalRunning s;
               counters := counters s;
               isHydrated := isHydrated s;
               alarmSoundRef := alarmSoundRef s |},
            [SetState VarGlobalElapsed]).

Definition setGlobalRunning (b : bool) : Handler :=
  fun s => ({| globalElapsed := globalElapsed s;
               globalRunning := b;
               counters := counters s;
               isHydrated := isHydrated s;
               alarmSoundRef := alarmSoundRef s |},
            [SetState VarGlobalRunning]).

Definition setCounters (f : list CounterState -> list CounterState) : Handler :=
  fun s => ({| globalElapsed := globalElapsed s;
               globalRunning := globalRunning s;
               counters := f (counters s);
               isHydrated := isHydrated s;
               alarmSoundRef := alarmSoundRef s |},
            [SetState VarCounters]).

Definition setIsHydrated (b : bool) : Handler :=
  fun s => ({| globalElapsed := globalElapsed s;
               globalRunning := globalRunning s;
               counters := counters s;
               isHydrated := b;
               alarmSoundRef := alarmSoundRef s |},
            [SetState VarIsHydrated]).

Definition putSoundRef (b : bool) : Handler :=
  fun s => ({| globalElapsed := globalElapsed s;
               globalRunning := globalRunning s;
               counters := counters s;
               isHydrated := isHydrated s;
               alarmSoundRef := b |},
            []).

Definition stopAlarmSound : Handler :=
  fun s =>
    if negb (alarmSoundRef s) then skip s
    else (emit SoundStop >> emit SoundUnload >> putSoundRef false) s.

Definition playAlarmSound : Handler :=
  stopAlarmSound >>
  emit (SoundCreate true) >>
  putSoundRef true >>
  emit (SoundSetVolume 1) >>
  emit SoundPlay.

Definition isAnyCounterRunning (s : State) : bool :=
  existsb isRunning (counters s).

Definition globalTick : Handler :=
  setGlobalElapsed (fun prev =>
    if prev + 1 >=? GLOBAL_ALARM_INTERVAL_SECONDS
    then GLOBAL_ALARM_INTERVAL_SECONDS
    else prev + 1).

Definition tickCounter (counter : CounterState) : CounterState :=
  if negb (isRunning counter) then counter
  else {| id := id counter;
          elapsed := elapsed counter + 1;
          isRunning := isRunning counter;
          isEmpty := false;
          startCount := startCount counter |}.

Definition counterTick : Handler := setCounters (map tickCounter).

(** [{ ...counter, isRunning: false }] *)
Definition pauseCounter (counter : CounterState) : CounterState :=
  {| id := id counter;
     elapsed := elapsed counter;
     isRunning := false;
     isEmpty := isEmpty counter;
     startCount := startCount counter |}.

Definition alarmDialog : AlertCall :=
  {| dialog := DlgAlarm; buttons := ["OK"%string]; cancelable := Some false |}.

Definition activationDialog : AlertCall :=
  {| dialog := DlgActivation; buttons := ["Non"%string; "Oui"%string];
     cancelable := None |}.

Definition resetAllDialog : AlertCall :=
  {| dialog := DlgResetAll; buttons := ["Annuler"%string; "Oui"%string];
     cancelable := None |}.

Definition serviceInactiveDialog : AlertCall :=
  {| dialog := DlgServiceInactive; buttons := []; cancelable := None |}.

Definition filterReminderDialog (counterId : Z) : AlertCall :=
  {| dialog := DlgFilterReminder counterId; buttons := ["OK"%string];
     cancelable := Some true |}.

(** The render effect watching [globalElapsed]: it stops the service and
    every counter, then alerts. *)
Definition alarmEffect : Handler :=
  fun s =>
    if negb (isHydrated s) || negb (globalRunning s) then skip s
    else if globalElapsed s <? GLOBAL_ALARM_INTERVAL_SECONDS then skip s
    else (setGlobalRunning false >>
          setCounters (map pauseCounter) >>
          emit (Vibrate [0; 500; 200; 500]) >>
          playAlarmSound >>
          emit (AlertShow alarmDialog)) s.

(** [onPress] of the alarm dialog's OK button. *)
Definition alarmDialogOk : Handler :=
  stopAlarmSound >>
  setCounters (fun _ => createInitialCounters) >>
  setGlobalElapsed (fun _ => 0) >>
  setGlobalRunning true.

Definition handleActivateGlobal : Handler :=
  fun s =>
    if globalRunning s then skip s
    else emit (AlertShow activationDialog) s.

Definition activationYes : Handler :=
  setGlobalElapsed (fun _ => 0) >>
  setGlobalRunning true.

Definition handleConfirmResetAll : Handler :=
  emit (AlertShow resetAllDialog).

Definition resetAllYes : Handler :=
  stopAlarmSound >>
  setGlobalRunning false >>
  setGlobalElapsed (fun _ => 0) >>
  setCounters (fun _ => createInitialCounters).

(** The [map] callback of [handleToggleCounter]. *)
Definition toggleCounter (i : Z) (counter : CounterState) : CounterState :=
  if negb (id counter =? i) then counter
  else if isRunning counter then pauseCounter counter
  else
    let nextStartCount := startCount counter + 1 in
    let shouldAlert := nextStartCount >=? 2 in
    {| id := id counter;
       elapsed := elapsed counter;
       isRunning := true;
       isEmpty := false;
       startCount := if shouldAlert then 0 else nextStartCount |}.

(** What the updater assigns to [alertCounterId] when it runs over
    [prev]: the identity of the last counter for which [shouldAlert] held,
    if any. *)
Fixpoint alertCounterId (i : Z) (prev : list CounterState) : option Z :=
  match prev with
  | [] => None
  | counter :: rest =>
      match alertCounterId i rest with
      | Some found => Some found
      | None =>
          if (id counter =? i) && negb (isRunning counter) &&
             (startCount counter + 1 >=? 2)
          then Some (id counter)
          else None
      end
  end.

(** [handleToggleCounter]. The updater handed to [setCounters] is queued;
    [alertCounterId !== null] is tested right after the call, when the
    variable still holds the [null] it was declared with, so the branch
    that schedules the filter reminder is not taken. *)
Definition handleToggleCounter (i : Z) : Handler :=
  fun s =>
    if negb (globalRunning s) then emit (AlertShow serviceInactiveDialog) s
    else
      let alertCounterIdAtTest : option Z := None in
      (setCounters (map (toggleCounter i)) >>
       match alertCounterIdAtTest with
       | Some found => emit (AlertShow (filterReminderDialog found))
       | None => skip
       end) s.

Definition clearCounter (i : Z) (counter : CounterState) : CounterState :=
  if negb (id counter =? i) then counter
  else {| id := id counter;
          elapsed := 0;
          isRunning := false;
          isEmpty := true;
          startCount := startCount counter |}.

Definition handleClearCounter (i : Z) : Handler :=
  setCounters (map (clearCounter i)).

Inductive Event :=
| EvGlobalTick
| EvCounterTick
| EvAlarmEffect
| EvActivate
| EvActivationYes
| EvConfirmResetAll
| EvResetAllYes
| EvToggleCounter (i : Z)
| EvClearCounter (i : Z)
| EvAlarmDialogOk.

Definition step (e : Event) : Handler :=
  match e with
  | EvGlobalTick =>
      fun s => if isHydrated s && globalRunning s then globalTick s else skip s
  | EvCounterTick =>
      fun s => if isHydrated s && isAnyCounterRunning s then counterTick s else skip s
  | EvAlarmEffect => alarmEffect
  | EvActivate => handleActivateGlobal
  | EvActivationYes => activationYes
  | EvConfirmResetAll => handleConfirmResetAll
  | EvResetAllYes => resetAllYes
  | EvToggleCounter i => handleToggleCounter i
  | EvClearCounter i => handleClearCounter i
  | EvAlarmDialogOk => alarmDialogOk
  end.

Definition run (evs : list Event) (s : State) : State :=
  fold_left (fun st e => fst (step e st)) evs s.

(** [JSON.parse(JSON.stringify(payload))] for the earlier payload. *)
Definition counterJson (c : CounterState) : json :=
  JObj [ ("id"%string, JNum (id c));
         ("elapsed"%string, JNum (elapsed c));
         ("isRunning"%string, JBool (isRunning c));
         ("isEmpty"%string, JBool (isEmpty c));
         ("startCount"%string, JNum (startCount c)) ].

Definition payload (s : State) : json :=
  JObj [ ("globalElapsed"%string, JNum (globalElapsed s));
         ("globalRunning"%string, JBool (globalRunning s));
         ("counters"%string, JArr (map counterJson (counters s))) ].

Definition persistEffect (s : State) : option json :=
  if negb (isHydrated s) then None else Some (payload s).

Definition hydrateCounter (persisted : json) (initial : CounterState) : CounterState :=
  {| id := id initial;
     elapsed := orElse (asNonNegative (getProp persisted "elapsed")) (elapsed initial);
     isRunning := orElse (asBoolean (getProp persisted "isRunning")) (isRunning initial);
     isEmpty := orElse (asBoolean (getProp persisted "isEmpty")) (isEmpty initial);
     startCount := orElse (asNonNegative (getProp persisted "startCount")) (startCount initial) |}.

Fixpoint hydrateCounters (items : list json) (current : list CounterState)
  : option (list CounterState) :=
  match current with
  | [] => Some []
  | initial :: rest =>
      match findPersisted items (id initial) with
      | Threw => None
      | Missing =>
          option_map (cons initial) (hydrateCounters items rest)
      | Found persisted =>
          option_map (cons (hydrateCounter persisted initial))
                     (hydrateCounters items rest)
      end
  end.

Inductive Outcome :=
| Restored (s : State)
| UpdaterThrew.

Definition applyWhen {A} (o : option A) (h : A -> Handler) : Handler :=
  match o with
  | Some a => h a
  | None => skip
  end.

Definition restoreCounters (parsed : json) (s : State) : option Handler :=
  match getProp parsed "counters" with
  | Some (JArr items) =>
      match hydrateCounters items (counters s) with
      | Some cs => Some (setCounters (fun _ => cs))
      | None => None
      end
  | _ => Some skip
  end.

Definition hydrate (stored : Stored) (s : State) : Outcome :=
  match stored with
  | StoredNothing | StoredUnreadable | StoredCorrupt | StoredJson JNull =>
      Restored (fst (setIsHydrated true s))
  | StoredJson parsed =>
      match restoreCounters parsed s with
      | None => UpdaterThrew
      | Some restore =>
          Restored (fst ((applyWhen (asNumber (getProp parsed "globalElapsed"))
                                    (fun n => setGlobalElapsed (fun _ => n)) >>
                          applyWhen (asBoolean (getProp parsed "globalRunning"))
                                    setGlobalRunning >>
                          restore >>
                          setIsHydrated true) s))
      end
  end.

Definition freshState : State :=
  match hydrate StoredNothing initialState with
  | Restored s => s
  | UpdaterThrew => initialState
  end.

(** The start-count invariant of a reached counter. *)
Definition startCountInCycle (c : CounterState) : Prop :=
  startCount c = 0 \/ startCount c = 1.

(** Hydrated, five counters 1..5, start counts 0 or 1, nothing negative,
    an empty counter idle with elapsed 0, the timer within its bounds, and
    a counter running only while the service is. *)
Definition reachedShape (s : State) : Prop :=
  isHydrated s = true /\
  map id (counters s) = [1; 2; 3; 4; 5] /\
  Forall (fun c => startCountInCycle c /\ 0 <= elapsed c /\
                   (isEmpty c = true -> elapsed c = 0 /\ isRunning c = false))
         (counters s) /\
  0 <= globalElapsed s <= GLOBAL_ALARM_INTERVAL_SECONDS /\
  (isAnyCounterRunning s = true -> globalRunning s = true).

(** Service active at the interval, counters 2 and 5 having run. *)
Definition atInterval : State :=
  {| globalElapsed := GLOBAL_ALARM_INTERVAL_SECONDS;
     globalRunning := true;
     counters := [ mkCounter 1 0 false true 0;
                   mkCounter 2 120 true false 1;
                   mkCounter 3 0 false true 0;
                   mkCounter 4 0 false true 0;
                   mkCounter 5 45 false false 1 ];
     isHydrated := true;
     alarmSoundRef := false |}.

End Earlier.

(** The later revision's counter for a record written by the earlier one. *)
Definition upgraded (c : Earlier.CounterState) : CounterState :=
  {| id := Earlier.id c;
     elapsed := Earlier.elapsed c;
     isRunning := Earlier.isRunning c;
     isEmpty := Earlier.isEmpty c;
     startCount := Earlier.startCount c;
     lastPauseTimestamp := None;
     filterClicks := 0 |}.

(** * Properties *)

(** ** Basic facts about the combinators *)

Lemma freshState_eq :
  freshState =
  {| globalElapsed := 0;
     globalRunning := false;
     counters := createInitialCounters;
     isHydrated := true;
     filterStartEvents := 0;
     alarmSoundRef := false;
     filterSoundRef := false |}.
Proof. reflexivity. Qed.

Lemma andThen_fst (h1 h2 : Handler) (s : State) :
  fst ((h1 ;; h2) s) = fst (h2 (fst (h1 s))).
Proof.
  unfold andThen. destruct (h1 s) as [s1 l1]. simpl.
  destruct (h2 s1) as [s2 l2]. reflexivity.
Qed.

(** An invariant that holds initially and is kept by every event holds
    after every run. *)
Lemma run_invariant (P : State -> Prop) (s0 : State) :
  P s0 ->
  (forall e s, P s -> P (fst (step e s))) ->
  forall evs, P (run evs s0).
Proof.
  intros H0 Hstep evs. revert s0 H0.
  induction evs as [|e evs IH]; intros s0 H0; simpl.
  - exact H0.
  - apply IH. apply Hstep. exact H0.
Qed.

(** ** C5: toggling while the service is stopped *)

(** C5. A [toggleCounter] intent received while [globalRunning] is false
    shows the service-inactive notice and returns the state unchanged:
    the log holds the notice and no state write. *)
Theorem toggle_while_stopped_rejected (i now pauseNow : Z) (s : State) :
  globalRunning s = false ->
  handleToggleCounter i now pauseNow s = (s, [AlertShow serviceInactiveDialog]).
Proof.
  intros Hstop. unfold handleToggleCounter. rewrite Hstop. reflexivity.
Qed.

Lemma toggle_while_stopped_rejected_witness :
  globalRunning freshState = false /\
  handleToggleCounter 3 1000 1000 freshState
    = (freshState, [AlertShow serviceInactiveDialog]).
Proof.
  split; [reflexivity | apply toggle_while_stopped_rejected; reflexivity].
Defined.

(** ** C6: reset all *)

(** C6. From every state, confirming reset-all stops and unloads the
    alarm sound and the filter sound when loaded, sets [globalRunning] to
    false, [globalElapsed] to 0, the counters to the five initial empty
    counters and [filterStartEvents] to 0: the snapshot is the initial
    one. *)
Theorem reset_all_yields_initial_snapshot (s : State) :
  let s' := fst (resetAllYes s) in
  let log := snd (resetAllYes s) in
  globalRunning s' = false /\
  globalElapsed s' = 0 /\
  filterStartEvents s' = 0 /\
  counters s' =
    [ mkCounter 1 0 false true 0 None 0;
      mkCounter 2 0 false true 0 None 0;
      mkCounter 3 0 false true 0 None 0;
      mkCounter 4 0 false true 0 None 0;
      mkCounter 5 0 false true 0 None 0 ] /\
  snapshot s' = snapshot initialState /\
  alarmSoundRef s' = false /\
  filterSoundRef s' = false /\
  log = stopLog AlarmSound s ++ stopLog FilterSound s ++
        [SetState VarGlobalRunning; SetState VarGlobalElapsed;
         SetState VarCounters; SetState VarFilterStartEvents].
Proof.
  unfold resetAllYes, stopAlarmSound, stopFilterSound, stopSound, stopLog.
  destruct s as [ge gr cs hy fse ar fr].
  destruct ar, fr; simpl; repeat split; reflexivity.
Qed.

(** ** C7: the counter tick *)

Lemma tickCounter_tickedFrom (c : CounterState) : tickedFrom c (tickCounter c).
Proof.
  unfold tickedFrom, tickCounter.
  destruct (isRunning c) eqn:E; simpl; split; intros H;
    try discriminate; repeat split; auto.
Qed.

Lemma Forall2_map_same {A} (R : A -> A -> Prop) (f : A -> A) (l : list A) :
  (forall a, R a (f a)) -> Forall2 R l (map f l).
Proof.
  intros H. induction l as [|a l IH]; simpl; constructor; auto.
Qed.

Lemma map_tickCounter_idle (cs : list CounterState) :
  existsb isRunning cs = false -> map tickCounter cs = cs.
Proof.
  induction cs as [|c cs IH]; simpl; intros H; [reflexivity|].
  apply orb_false_iff in H. destruct H as [Hc Hcs].
  unfold tickCounter at 1. rewrite Hc. simpl. now rewrite IH.
Qed.

Lemma step_counterTick_counters (s : State) :
  isHydrated s = true ->
  counters (fst (step EvCounterTick s)) = map tickCounter (counters s).
Proof.
  intros Hh. simpl. rewrite Hh. simpl.
  unfold isAnyCounterRunning.
  destruct (existsb isRunning (counters s)) eqn:E; simpl.
  - reflexivity.
  - symmetry. now apply map_tickCounter_idle.
Qed.

(** C7. On a tick of the counter interval, position by position, every
    counter that was running has [elapsed] increased by exactly 1 and
    every counter that was not running is returned unchanged; the global
    fields are not touched. *)
Theorem counter_tick_lockstep (s : State) :
  isHydrated s = true ->
  let s' := fst (step EvCounterTick s) in
  Forall2 tickedFrom (counters s) (counters s') /\
  globalElapsed s' = globalElapsed s /\
  globalRunning s' = globalRunning s /\
  filterStartEvents s' = filterStartEvents s.
Proof.
  intros Hh s'. subst s'. split.
  - rewrite step_counterTick_counters by exact Hh.
    apply Forall2_map_same. exact tickCounter_tickedFrom.
  - simpl. rewrite Hh. simpl.
    destruct (isAnyCounterRunning s); simpl; auto.
Qed.

Lemma counter_tick_lockstep_witness :
  isHydrated onePausedOneRunning = true /\
  Forall2 tickedFrom (counters onePausedOneRunning)
          (counters (fst (step EvCounterTick onePausedOneRunning))).
Proof.
  split; [reflexivity | apply (counter_tick_lockstep onePausedOneRunning); reflexivity].
Defined.

(** ** C3: the alarm *)

(** The two halves of [playSound] make up the whole. *)
Lemma playSound_split (k : SoundKind) (s : State) :
  (playSoundCall k ;; playSoundResume k) s = playSound k s.
Proof.
  destruct s as [ge gr cs hy fse ar fr].
  destruct k, ar, fr; reflexivity.
Qed.




(** ** Case analysis on one step *)

Lemma interval_value : GLOBAL_ALARM_INTERVAL_SECONDS = 14400.
Proof. reflexivity. Qed.

Ltac unfold_handlers :=
  unfold handleToggleCounter, handleClearCounter, handleActivateGlobal,
    handleConfirmResetAll, resetAllYes, activationYes, alarmEffect,
    alarmDialogOk, filterDialogOk, globalTick, counterTick,
    bumpFilterStartEvents, triggerFilterAlert, playAlarmSound,
    playFilterSound, playSound, playSoundCall, playSoundResume,
    stopAlarmSound, stopFilterSound, stopSound,
    andThen, emit, skip, setGlobalElapsed, setGlobalRunning, setCounters,
    setIsHydrated, putFilterStartEvents, putSoundRef, soundRef in *.

Ltac split_ifs :=
  repeat match goal with
         | |- context [if ?b then _ else _] => destruct b eqn:?; simpl in *
         end.

Ltac step_cases e s :=
  destruct s as [ge gr cs hy fse ar fr];
  destruct e; simpl in *; unfold_handlers; simpl in *; split_ifs;
  rewrite ?interval_value in *.

(** ** C4: bounds of the global timer *)

Lemma globalInRange_step (e : Event) (s : State) :
  globalInRange s -> globalInRange (fst (step e s)).
Proof.
  unfold globalInRange. rewrite interval_value. intros [Hh Hr].
  step_cases e s; subst; split; try reflexivity; try lia; try discriminate.
Qed.

Lemma globalInRange_run (evs : list Event) : globalInRange (run evs freshState).
Proof.
  apply run_invariant.
  - split; [reflexivity | rewrite interval_value; simpl; lia].
  - intros e s. apply globalInRange_step.
Qed.

(** C4. After every sequence of events from first launch, [globalElapsed]
    lies in [0, GLOBAL_ALARM_INTERVAL_SECONDS]; a global tick while
    running gives [min (globalElapsed + 1) GLOBAL_ALARM_INTERVAL_SECONDS]
    and does nothing while stopped; and the only events that can lower
    [globalElapsed] are the activation confirmation, the reset-all
    confirmation and the alarm effect, each setting it to 0. *)
Theorem global_elapsed_bounded (evs : list Event) :
  let s := run evs freshState in
  0 <= globalElapsed s <= GLOBAL_ALARM_INTERVAL_SECONDS /\
  (globalRunning s = true ->
     globalElapsed (fst (step EvGlobalTick s))
       = Z.min (globalElapsed s + 1) GLOBAL_ALARM_INTERVAL_SECONDS) /\
  (globalRunning s = false -> step EvGlobalTick s = (s, [])) /\
  (forall e,
     globalElapsed (fst (step e s)) < globalElapsed s ->
     (e = EvActivationYes \/ e = EvResetAllYes \/ e = EvAlarmEffect) /\
     globalElapsed (fst (step e s)) = 0).
Proof.
  intros s. destruct (globalInRange_run evs) as [Hh Hr]. fold s in Hh, Hr.
  clearbody s. rewrite interval_value in *.
  split; [exact Hr|]. split; [|split].
  - intros Hrun. simpl. rewrite Hh, Hrun. simpl.
    unfold globalTick, setGlobalElapsed. simpl. rewrite interval_value.
    destruct (globalElapsed s + 1 >=? 14400) eqn:E; lia.
  - intros Hstop. simpl. rewrite Hh, Hstop. reflexivity.
  - intros e Hlt.
    step_cases e s; subst; auto; try lia; try discriminate.
Qed.

(** ** C2: the filter-alert accumulator *)

(** In every state, the accumulator updater stores 0 and triggers the
    alert when the incremented value is 2 or more, and stores the
    incremented value otherwise; it never leaves 2. *)
Lemma bumpFilterStartEvents_spec (s : State) :
  let s' := fst (bumpFilterStartEvents s) in
  let log := snd (bumpFilterStartEvents s) in
  (2 <= filterStartEvents s + 1 ->
     filterStartEvents s' = 0 /\
     log = filterAlertLog s ++ [SetState VarFilterStartEvents]) /\
  (filterStartEvents s + 1 < 2 ->
     filterStartEvents s' = filterStartEvents s + 1 /\
     log = [SetState VarFilterStartEvents]) /\
  filterStartEvents s' <> 2.
Proof.
  unfold filterAlertLog, stopLog.
  destruct s as [ge gr cs hy fse ar fr]. unfold_handlers. simpl.
  destruct (fse + 1 >=? 2) eqn:E; destruct fr; simpl;
    repeat split; intros; try lia; try reflexivity.
Qed.

Lemma accumulatorInCycle_step (e : Event) (s : State) :
  accumulatorInCycle s -> accumulatorInCycle (fst (step e s)).
Proof.
  unfold accumulatorInCycle. intros H.
  step_cases e s; subst; try lia.
Qed.

Lemma accumulatorInCycle_run (evs : list Event) :
  accumulatorInCycle (run evs freshState).
Proof.
  apply run_invariant.
  - left. reflexivity.
  - intros e s. apply accumulatorInCycle_step.
Qed.

(** C2. In every state reached from first launch by intents, ticks and
    effects, [filterStartEvents] is 0 or 1. A qualifying start at 0 stores
    1 without alert; a qualifying start at 1 triggers the filter alert
    (vibration 0,400,150,400, looping filter sound, non-cancelable dialog)
    inside the update and stores 0; any other event shows no filter alert
    and keeps the value, except reset-all which stores 0. After any event
    the value is not 2. *)
Theorem filter_accumulator_cycle (evs : list Event) (e : Event) :
  let s := run evs freshState in
  let s' := fst (step e s) in
  let log := snd (step e s) in
  accumulatorInCycle s /\
  (qualifyingStart e s = true -> filterStartEvents s = 0 ->
     filterStartEvents s' = 1 /\ ~ filterAlertShown log) /\
  (qualifyingStart e s = true -> filterStartEvents s = 1 ->
     filterStartEvents s' = 0 /\
     log = [SetState VarCounters] ++ filterAlertLog s ++
           [SetState VarFilterStartEvents]) /\
  (qualifyingStart e s = false ->
     ~ filterAlertShown log /\
     (filterStartEvents s' = filterStartEvents s \/
      (e = EvResetAllYes /\ filterStartEvents s' = 0))) /\
  filterStartEvents s' <> 2.
Proof.
  intros s s' log.
  assert (Hs : accumulatorInCycle s) by apply accumulatorInCycle_run.
  assert (Hs' : accumulatorInCycle s').
  { apply accumulatorInCycle_step. exact Hs. }
  subst s' log. clearbody s. clear evs.
  split; [exact Hs|]. split; [|split; [|split]].
  - intros Hq H0. destruct e; try discriminate. simpl in Hq.
    apply andb_true_iff in Hq. destruct Hq as [Hrun Hallow].
    unfold filterAlertShown.
    simpl. unfold handleToggleCounter. rewrite Hrun, Hallow. simpl.
    destruct s as [ge gr cs hy fse ar fr]. simpl in *. subst.
    unfold_handlers. simpl. split; [reflexivity|].
    intros [H|[H|[]]]; discriminate.
  - intros Hq H1. destruct e; try discriminate. simpl in Hq.
    apply andb_true_iff in Hq. destruct Hq as [Hrun Hallow].
    simpl. unfold handleToggleCounter. rewrite Hrun, Hallow. simpl.
    unfold filterAlertLog, stopLog.
    destruct s as [ge gr cs hy fse ar fr]. simpl in *. subst.
    unfold_handlers. simpl. destruct fr; simpl; split; reflexivity.
  - intros Hq. unfold filterAlertShown. clear Hs Hs'.
    destruct e; unfold qualifyingStart in Hq; simpl.
    8: { unfold handleToggleCounter.
         destruct (globalRunning s) eqn:Hrun; simpl.
         - rewrite andb_true_l in Hq. rewrite Hq.
           destruct s as [ge gr cs hy fse ar fr]. unfold_handlers. simpl.
           split; [intros H; simpl in H; intuition discriminate | auto].
         - unfold emit. simpl.
           split; [intros H; simpl in H; intuition discriminate | auto]. }
    all: destruct s as [ge gr cs hy fse ar fr]; unfold_handlers; simpl;
      split_ifs; (split; [intros H; simpl in H; intuition discriminate | auto]).
  - destruct Hs' as [H|H]; rewrite H; discriminate.
Qed.

(** ** C1: qualifying starts *)

Lemma findCounter_map (f : CounterState -> CounterState) (i : Z)
      (cs : list CounterState) :
  (forall c, id (f c) = id c) ->
  findCounter i (map f cs) = option_map f (findCounter i cs).
Proof.
  intros Hid. unfold findCounter.
  induction cs as [|c cs IH]; simpl; [reflexivity|].
  rewrite Hid. destruct (id c =? i); [reflexivity | exact IH].
Qed.

Lemma toggleCounter_id (i pauseNow : Z) (allow : bool) (c : CounterState) :
  id (toggleCounter i pauseNow allow c) = id c.
Proof.
  unfold toggleCounter.
  destruct (id c =? i); simpl; [|reflexivity].
  destruct (isRunning c); reflexivity.
Qed.

Lemma findCounter_id (i : Z) (cs : list CounterState) (c : CounterState) :
  findCounter i cs = Some c -> id c = i.
Proof.
  unfold findCounter. intros H. apply find_some in H. lia.
Qed.

Lemma toggle_running_counters (i now pauseNow : Z) (s : State) :
  globalRunning s = true ->
  counters (fst (handleToggleCounter i now pauseNow s)) =
  map (toggleCounter i pauseNow (allowFilterIncrementPrecomputed i now s))
      (counters s).
Proof.
  intros Hrun. unfold handleToggleCounter. rewrite Hrun. simpl.
  rewrite andThen_fst.
  destruct (allowFilterIncrementPrecomputed i now s);
    destruct s as [ge gr cs hy fse ar fr]; unfold_handlers; simpl;
    split_ifs; reflexivity.
Qed.

Lemma toggle_running_filterStartEvents (i now pauseNow : Z) (s : State) :
  globalRunning s = true ->
  filterStartEvents (fst (handleToggleCounter i now pauseNow s)) =
  if allowFilterIncrementPrecomputed i now s
  then (if 2 <=? filterStartEvents s + 1 then 0 else filterStartEvents s + 1)
  else filterStartEvents s.
Proof.
  intros Hrun. unfold handleToggleCounter. rewrite Hrun. simpl.
  rewrite andThen_fst.
  destruct (allowFilterIncrementPrecomputed i now s);
    destruct s as [ge gr cs hy fse ar fr]; unfold_handlers; simpl;
    split_ifs; try reflexivity; lia.
Qed.

Lemma allow_iff_qualifies (i now : Z) (s : State) (target : CounterState) :
  findCounter i (counters s) = Some target ->
  isRunning target = false ->
  allowFilterIncrementPrecomputed i now s = true <-> qualifies now target.
Proof.
  intros Hfind Hidle. unfold allowFilterIncrementPrecomputed, qualifies.
  rewrite Hfind, Hidle. simpl.
  destruct (isEmpty target); simpl.
  - split; auto.
  - destruct (lastPauseTimestamp target) as [t|].
    + split.
      * intros H. right. split; [reflexivity|]. exists t. split; [reflexivity|lia].
      * intros [H|[_ [t' [Ht' Hge]]]]; [discriminate|].
        injection Ht' as <-. lia.
    + split; [discriminate|].
      intros [H|[_ [t' [Ht' _]]]]; discriminate.
Qed.

(** Starting the empty counter 2 in that state is a qualifying start, and
    [filterStartEvents] goes from 1 to 0, not to 2. *)
Lemma qualifying_start_resets_accumulator :
  ~ qualifyingStartAddsOneToBoth oneStarted 2 1000 1000.
Proof.
  intros H.
  specialize (H (mkCounter 2 0 false true 0 None 0) eq_refl eq_refl eq_refl).
  destruct H as [_ H]; [left; reflexivity|].
  vm_compute in H. discriminate.
Qed.

Lemma toggle_running_log (i now pauseNow : Z) (s : State) :
  globalRunning s = true ->
  snd (handleToggleCounter i now pauseNow s) =
  if allowFilterIncrementPrecomputed i now s
  then (if 2 <=? filterStartEvents s + 1
        then [SetState VarCounters] ++ filterAlertLog s ++
             [SetState VarFilterStartEvents]
        else [SetState VarCounters; SetState VarFilterStartEvents])
  else [SetState VarCounters].
Proof.
  intros Hrun. unfold handleToggleCounter. rewrite Hrun. simpl.
  unfold filterAlertLog, stopLog.
  destruct (allowFilterIncrementPrecomputed i now s);
    destruct s as [ge gr cs hy fse ar fr]; unfold_handlers; simpl;
    [|reflexivity].
  destruct (fse + 1 >=? 2) eqn:E1; destruct (2 <=? fse + 1) eqn:E2;
    try lia; destruct fr; reflexivity.
Qed.

Lemma toggle_running_filterSoundRef (i now pauseNow : Z) (s : State) :
  globalRunning s = true ->
  allowFilterIncrementPrecomputed i now s = true ->
  2 <= filterStartEvents s + 1 ->
  filterSoundRef (fst (handleToggleCounter i now pauseNow s)) = true.
Proof.
  intros Hrun Hallow Hge. unfold handleToggleCounter.
  rewrite Hrun, Hallow. simpl.
  destruct s as [ge gr cs hy fse ar fr]; unfold_handlers; simpl in *.
  replace (fse + 1 >=? 2) with true by lia.
  destruct fr; reflexivity.
Qed.

(** C1 (amended). For a toggle of counter [i] received while the service
    runs and the counter is not running: the start qualifies exactly when
    the counter was empty, or was paused with at least 30000 ms elapsed
    since [lastPauseTimestamp]; the counter is then running; a qualifying
    start adds exactly 1 to its [filterClicks] and adds 1 to
    [filterStartEvents], which is stored as 0 instead when the sum is 2 or
    more, and in that case the filter alert fires (vibration 0,400,150,400,
    looping filter sound created and played, non-cancelable filter
    dialog); a qualifying start below 2 only writes the counters and the
    accumulator; a start that does not qualify leaves both counts unchanged
    and only writes the counters. *)
Theorem qualifying_start_counts (s : State) (i now pauseNow : Z)
        (target : CounterState) :
  globalRunning s = true ->
  findCounter i (counters s) = Some target ->
  isRunning target = false ->
  let s' := fst (handleToggleCounter i now pauseNow s) in
  let log := snd (handleToggleCounter i now pauseNow s) in
  (allowFilterIncrementPrecomputed i now s = true <-> qualifies now target) /\
  (exists target',
    findCounter i (counters s') = Some target' /\
    isRunning target' = true /\
    (qualifies now target ->
       filterClicks target' = filterClicks target + 1 /\
       filterStartEvents s' =
         (if 2 <=? filterStartEvents s + 1 then 0 else filterStartEvents s + 1)) /\
    (~ qualifies now target ->
       filterClicks target' = filterClicks target /\
       filterStartEvents s' = filterStartEvents s)) /\
  (qualifies now target -> 2 <= filterStartEvents s + 1 ->
     In (Vibrate [0; 400; 150; 400]) log /\
     In (SoundCreate FilterSound true) log /\
     In (SoundPlay FilterSound) log /\
     filterAlertShown log /\
     cancelable filterAlertDialog = Some false /\
     filterSoundRef s' = true) /\
  (qualifies now target -> filterStartEvents s + 1 < 2 ->
     log = [SetState VarCounters; SetState VarFilterStartEvents]) /\
  (~ qualifies now target -> log = [SetState VarCounters]).
Proof.
  intros Hrun Hfind Hidle s' log.
  pose proof (allow_iff_qualifies i now s target Hfind Hidle) as Hiff.
  split; [exact Hiff|].
  pose proof (toggle_running_log i now pauseNow s Hrun) as Hlog.
  pose proof (toggle_running_filterSoundRef i now pauseNow s Hrun) as Href.
  fold log in Hlog. fold s' in Href. clearbody log.
  set (allow := allowFilterIncrementPrecomputed i now s) in *.
  split; [|split; [|split]].
  - exists (toggleCounter i pauseNow allow target).
    subst s'. rewrite toggle_running_counters by exact Hrun.
    rewrite toggle_running_filterStartEvents by exact Hrun. fold allow.
    rewrite findCounter_map by (intros c; apply toggleCounter_id).
    rewrite Hfind. simpl.
    pose proof (findCounter_id _ _ _ Hfind) as Hid.
    unfold toggleCounter. rewrite Hid, Z.eqb_refl, Hidle. simpl.
    split; [reflexivity|]. split; [reflexivity|]. split.
    + intros Hq. apply Hiff in Hq. rewrite Hq. auto.
    + intros Hq. destruct allow; [exfalso; apply Hq, Hiff; reflexivity | auto].
  - intros Hq Hge. apply Hiff in Hq. rewrite Hq in Hlog.
    replace (2 <=? filterStartEvents s + 1) with true in Hlog by lia.
    subst log. unfold filterAlertShown, filterAlertLog.
    repeat split; try (apply Href; assumption);
      simpl; rewrite !in_app_iff; simpl; tauto.
  - intros Hq Hlt. apply Hiff in Hq. rewrite Hq in Hlog.
    replace (2 <=? filterStartEvents s + 1) with false in Hlog by lia.
    exact Hlog.
  - intros Hq. destruct allow; [exfalso; apply Hq, Hiff; reflexivity|].
    exact Hlog.
Qed.

(** Resuming exactly 30000 ms after the pause qualifies; the accumulator
    held 1, so the filter alert fires. *)
Lemma qualifying_start_counts_witness :
  let s' := fst (handleToggleCounter 1 35000 35000 pausedAt5000) in
  filterStartEvents pausedAt5000 = 1 /\
  (exists target',
    findCounter 1 (counters s') = Some target' /\
    filterClicks target' = 2 /\
    filterStartEvents s' = 0) /\
  filterAlertShown (snd (handleToggleCounter 1 35000 35000 pausedAt5000)).
Proof.
  split; [reflexivity|].
  assert (Hq : qualifies 35000 (mkCounter 1 1 false false 0 (Some 5000) 1)).
  { right. split; [reflexivity|]. exists 5000. split; [reflexivity | lia]. }
  destruct (qualifying_start_counts pausedAt5000 1 35000 35000
              (mkCounter 1 1 false false 0 (Some 5000) 1)
              eq_refl eq_refl eq_refl)
    as [_ [[target' [Hf [_ [Hc _]]]] [Ha _]]].
  split.
  - exists target'. split; [exact Hf|]. apply Hc. exact Hq.
  - apply Ha; [exact Hq | simpl; lia].
Defined.

(** ** C8: the empty / busy invariant of a counter *)

Lemma exactlyOne_emptyIsIdle (c : CounterState) : exactlyOne c -> emptyIsIdle c.
Proof.
  unfold exactlyOne, emptyIsIdle, busy. intros [[He Hb]|[He Hb]] H.
  - split.
    + destruct (Z.eq_dec (elapsed c) 0); [assumption | exfalso; auto].
    + destruct (isRunning c); [exfalso; auto | reflexivity].
  - congruence.
Qed.

(** Pausing a counter that was started and has not ticked yet: before, all
    five counters satisfy [exactlyOne]; after, counter 1 is neither empty
    nor busy. *)
Lemma pause_before_first_tick_breaks_exactlyOne :
  Forall exactlyOne (counters oneStarted) /\
  ~ Forall exactlyOne (counters (fst (step (EvToggleCounter 1 5 5) oneStarted))).
Proof.
  split.
  - vm_compute counters.
    apply Forall_cons.
    { right. split; [reflexivity | right; reflexivity]. }
    repeat (apply Forall_cons;
            [left; split;
             [reflexivity
             | intros [H|H]; [apply H; reflexivity | discriminate]] |]).
    apply Forall_nil.
  - intros H. vm_compute counters in H. inversion H as [|c cs H1 _]; subst.
    unfold exactlyOne, busy in H1. simpl in H1.
    destruct H1 as [[He _]|[_ [Hb|Hb]]];
      [discriminate | apply Hb; reflexivity | discriminate].
Qed.

Lemma emptyIsIdle_tickCounter (c : CounterState) :
  emptyIsIdle c -> emptyIsIdle (tickCounter c).
Proof.
  unfold emptyIsIdle, tickCounter.
  destruct (isRunning c) eqn:E; simpl; intros H He.
  - discriminate.
  - rewrite E. apply H. exact He.
Qed.

Lemma emptyIsIdle_toggleCounter (i pauseNow : Z) (allow : bool) (c : CounterState) :
  emptyIsIdle c -> emptyIsIdle (toggleCounter i pauseNow allow c).
Proof.
  unfold emptyIsIdle, toggleCounter.
  destruct (id c =? i); simpl; [|auto].
  destruct (isRunning c) eqn:E; simpl; intros H He.
  - destruct (H He). discriminate.
  - discriminate.
Qed.

Lemma emptyIsIdle_clearCounter (i : Z) (c : CounterState) :
  emptyIsIdle c -> emptyIsIdle (clearCounter i c).
Proof.
  unfold emptyIsIdle, clearCounter.
  destruct (id c =? i); simpl; auto.
Qed.

Lemma emptyIsIdle_initial : Forall emptyIsIdle createInitialCounters.
Proof.
  unfold createInitialCounters. simpl.
  repeat constructor; intros _; simpl; auto.
Qed.

Lemma Forall_map_preserved {A} (P : A -> Prop) (f : A -> A) (l : list A) :
  (forall a, P a -> P (f a)) -> Forall P l -> Forall P (map f l).
Proof.
  intros Hf H. induction H; simpl; constructor; auto.
Qed.

Lemma emptyIsIdle_step (e : Event) (s : State) :
  Forall emptyIsIdle (counters s) ->
  Forall emptyIsIdle (counters (fst (step e s))).
Proof.
  intros H.
  destruct e; simpl.
  8: { unfold handleToggleCounter. destruct (globalRunning s) eqn:Hrun; simpl.
       - rewrite andThen_fst.
         assert (Hc : Forall emptyIsIdle
                   (counters (fst (setCounters
                      (map (toggleCounter i pauseNow
                              (allowFilterIncrementPrecomputed i now s))) s)))).
         { simpl. apply Forall_map_preserved; [|exact H].
           intros c. apply emptyIsIdle_toggleCounter. }
         revert Hc.
         generalize (fst (setCounters
                      (map (toggleCounter i pauseNow
                              (allowFilterIncrementPrecomputed i now s))) s)).
         intros s1 Hc.
         destruct (allowFilterIncrementPrecomputed i now s); [|exact Hc].
         destruct s1 as [ge gr cs hy fse ar fr]. unfold_handlers. simpl in *.
         split_ifs; exact Hc.
       - exact H. }
  all: destruct s as [ge gr cs hy fse ar fr]; unfold_handlers; simpl in *;
    split_ifs; try exact H; try exact emptyIsIdle_initial.
  - apply Forall_map_preserved; [apply emptyIsIdle_tickCounter | exact H].
  - apply Forall_map_preserved; [apply emptyIsIdle_clearCounter | exact H].
Qed.

(** ** Rehydrating from a payload written by the engine *)

Lemma findPersisted_counterJson (cs : list CounterState) (i : Z) :
  findPersisted (map counterJson cs) i =
  match findCounter i cs with
  | Some c => Found (counterJson c)
  | None => Missing
  end.
Proof.
  unfold findCounter.
  induction cs as [|c cs IH]; simpl; [reflexivity|].
  destruct (id c =? i); [reflexivity | exact IH].
Qed.

Lemma hydrateCounter_counterJson (c initial : CounterState) :
  hydrateCounter (counterJson c) initial = reloaded c initial.
Proof.
  unfold hydrateCounter, reloaded, counterJson, asNonNegative. simpl.
  destruct (elapsed c >=? 0), (startCount c >=? 0), (filterClicks c >=? 0),
    (lastPauseTimestamp c); reflexivity.
Qed.

Lemma hydrateCounters_counterJson (pcs current : list CounterState) :
  hydrateCounters (map counterJson pcs) current = Some (reloadAll pcs current).
Proof.
  unfold reloadAll.
  induction current as [|initial rest IH]; simpl; [reflexivity|].
  rewrite findPersisted_counterJson, IH.
  destruct (findCounter (id initial) pcs) as [c|]; simpl.
  - now rewrite hydrateCounter_counterJson.
  - reflexivity.
Qed.

Lemma hydrate_payload (p s : State) :
  hydrate (StoredJson (payload p)) s =
  Restored
    {| globalElapsed := globalElapsed p;
       globalRunning := globalRunning p;
       counters := reloadAll (counters p) (counters s);
       isHydrated := true;
       filterStartEvents :=
         if filterStartEvents p >=? 0 then filterStartEvents p
         else filterStartEvents s;
       alarmSoundRef := alarmSoundRef s;
       filterSoundRef := filterSoundRef s |}.
Proof.
  unfold hydrate, payload, restoreCounters. simpl.
  rewrite hydrateCounters_counterJson.
  unfold asNonNegative. simpl.
  destruct (filterStartEvents p >=? 0); reflexivity.
Qed.

Lemma emptyIsIdle_reloaded (c initial : CounterState) :
  emptyIsIdle c -> emptyIsIdle (reloaded c initial).
Proof.
  unfold emptyIsIdle, reloaded. simpl. intros H He.
  destruct (H He) as [H0 Hr]. rewrite H0. simpl. auto.
Qed.

Lemma findCounter_In (i : Z) (cs : list CounterState) (c : CounterState) :
  findCounter i cs = Some c -> In c cs.
Proof.
  unfold findCounter. intros H. apply find_some in H. tauto.
Qed.

Lemma emptyIsIdle_reloadAll (pcs current : list CounterState) :
  Forall emptyIsIdle pcs -> Forall emptyIsIdle current ->
  Forall emptyIsIdle (reloadAll pcs current).
Proof.
  intros Hp Hc. unfold reloadAll.
  induction Hc as [|initial rest Hi Hrest IH]; simpl; constructor; [|exact IH].
  destruct (findCounter (id initial) pcs) as [c|] eqn:E; [|exact Hi].
  apply emptyIsIdle_reloaded.
  rewrite Forall_forall in Hp. apply Hp. eapply findCounter_In. exact E.
Qed.

(** C8 (amended). The invariant that an empty counter has elapsed 0 and is
    not running (at most one of empty and busy; in particular never empty
    while running) is kept by every event of the engine (toggle, clear,
    ticks, activation, reset-all, alarm effect, dialog buttons) and by
    rehydration from a payload the engine persisted from a state that
    satisfies it. *)
Theorem empty_idle_invariant_preserved (s : State) :
  Forall emptyIsIdle (counters s) ->
  (forall e, Forall emptyIsIdle (counters (fst (step e s)))) /\
  (forall p, Forall emptyIsIdle (counters p) ->
     exists s', hydrate (StoredJson (payload p)) s = Restored s' /\
                Forall emptyIsIdle (counters s')) /\
  Forall (fun c => ~ (isEmpty c = true /\ isRunning c = true)) (counters s).
Proof.
  intros H. split; [|split].
  - intros e. apply emptyIsIdle_step. exact H.
  - intros p Hp. rewrite hydrate_payload. eexists. split; [reflexivity|].
    simpl. apply emptyIsIdle_reloadAll; assumption.
  - eapply Forall_impl; [|exact H].
    intros c Hc [He Hr]. destruct (Hc He). congruence.
Qed.

Lemma empty_idle_invariant_preserved_witness :
  Forall emptyIsIdle (counters oneStarted) /\
  Forall emptyIsIdle (counters (fst (step (EvToggleCounter 1 5 5) oneStarted))).
Proof.
  assert (H : Forall emptyIsIdle (counters oneStarted)).
  { vm_compute counters.
    repeat (apply Forall_cons;
            [intros He; simpl in *; first [discriminate | split; reflexivity] |]).
    apply Forall_nil. }
  split; [exact H|].
  apply (empty_idle_invariant_preserved oneStarted H).
Defined.

(** A partial record is completed field by field from the defaults, which
    can pair a persisted [isRunning = true] with the default
    [isEmpty = true]. *)
Example hydrate_partial_record_running_and_empty :
  exists s,
    hydrate (StoredJson
               (JObj [("counters"%string,
                       JArr [JObj [("id"%string, JNum 1);
                                   ("isRunning"%string, JBool true)]])]))
            initialState = Restored s /\
    findCounter 1 (counters s) = Some (mkCounter 1 0 true true 0 None 0).
Proof. eexists. split; reflexivity. Qed.

(** ** C9: validation during rehydration *)

(** Nothing stored, an unreadable or unparsable item, or the JSON value
    [null]: the defaults are kept and the engine is marked hydrated. *)
Lemma hydrate_missing_or_corrupt (stored : Stored) :
  stored = StoredNothing \/ stored = StoredUnreadable \/
  stored = StoredCorrupt \/ stored = StoredJson JNull ->
  hydrate stored initialState = Restored freshState.
Proof.
  intros [H|[H|[H|H]]]; subst; reflexivity.
Qed.

(** The per-counter numeric fields and [filterStartEvents] are taken from
    the store only when they are numbers >= 0. *)
Lemma hydrateCounter_nonnegative (persisted : json) (initial : CounterState) :
  0 <= elapsed initial -> 0 <= startCount initial -> 0 <= filterClicks initial ->
  let c := hydrateCounter persisted initial in
  0 <= elapsed c /\ 0 <= startCount c /\ 0 <= filterClicks c /\ id c = id initial.
Proof.
  intros He Hs Hf. unfold hydrateCounter, asNonNegative. simpl.
  repeat split;
    match goal with
    | |- context [asNumber ?v] => destruct (asNumber v) as [n|]; simpl; [|lia];
                                  destruct (n >=? 0) eqn:E; simpl; lia
    | _ => idtac
    end.
Qed.

(** C9. Rehydrating from [negativeEverywhere]: the negative [elapsed],
    [startCount], [filterClicks] and [filterStartEvents] are rejected and
    the defaults kept, but the negative [globalElapsed] is applied: the
    restored state has [globalElapsed = -5]. *)
Theorem hydrate_applies_negative_globalElapsed :
  exists s,
    hydrate (StoredJson negativeEverywhere) initialState = Restored s /\
    globalElapsed s = -5 /\
    filterStartEvents s = 0 /\
    counters s = createInitialCounters /\
    isHydrated s = true.
Proof. eexists. repeat split. Qed.

(** A [null] element in the stored counters array makes the [find]
    callback of the updater throw. *)
Example hydrate_null_counter_item :
  hydrate (StoredJson (JObj [("counters"%string, JArr [JNull])])) initialState
  = UpdaterThrew.
Proof. reflexivity. Qed.

(** ** C10: persist then rehydrate *)

Lemma asNonNegative_some (v : option json) (n : Z) :
  asNonNegative v = Some n -> 0 <= n.
Proof.
  unfold asNonNegative. destruct (asNumber v) as [m|]; [|discriminate].
  destruct (m >=? 0) eqn:E; [|discriminate].
  intros H. injection H as <-. lia.
Qed.

Lemma hydrateCounters_shape (items : list json) (current cs : list CounterState) :
  hydrateCounters items current = Some cs ->
  map id cs = map id current /\
  (Forall nonNegativeFields current -> Forall nonNegativeFields cs).
Proof.
  revert cs. induction current as [|initial rest IH]; simpl; intros cs H.
  - injection H as <-. auto.
  - destruct (findPersisted items (id initial)) as [persisted| |];
      [| |discriminate];
      destruct (hydrateCounters items rest) as [cs'|]; try discriminate;
      simpl in H; injection H as <-;
      destruct (IH cs' eq_refl) as [Hids Hnn]; simpl.
    + split; [now rewrite Hids|].
      intros Hall. inversion Hall as [|c l Hc Hl]; subst.
      constructor; [|auto].
      destruct Hc as [He [Hs Hf]].
      pose proof (hydrateCounter_nonnegative persisted initial He Hs Hf) as Hh.
      simpl in Hh. unfold nonNegativeFields. tauto.
    + split; [now rewrite Hids|].
      intros Hall. inversion Hall; subst. constructor; auto.
Qed.

Lemma nonNegativeFields_initial : Forall nonNegativeFields createInitialCounters.
Proof.
  unfold createInitialCounters. simpl.
  repeat (apply Forall_cons; [unfold nonNegativeFields; simpl; lia|]).
  apply Forall_nil.
Qed.

Lemma wellFormed_freshState : wellFormed freshState.
Proof.
  unfold wellFormed. split; [reflexivity|]. split; [reflexivity|].
  split; [exact nonNegativeFields_initial | simpl; lia].
Qed.

(** Whatever the store holds, a launch that restores a state restores a
    well-formed one. *)
Lemma wellFormed_hydrate (stored : Stored) (s0 : State) :
  hydrate stored initialState = Restored s0 -> wellFormed s0.
Proof.
  intros H.
  destruct stored as [| | |parsed];
    try (injection H as <-; exact wellFormed_freshState).
  destruct parsed as [| | | | |fields];
    try (unfold hydrate, restoreCounters in H; simpl in H; injection H as <-;
         exact wellFormed_freshState).
  unfold hydrate, restoreCounters in H. simpl getProp in H.
  assert (Hc : exists restore,
           match assoc "counters" fields with
           | Some (JArr items) =>
               match hydrateCounters items (counters initialState) with
               | Some cs => Some (setCounters (fun _ => cs))
               | None => None
               end
           | _ => Some skip
           end = Some restore /\
           (restore = skip \/
            exists cs, restore = setCounters (fun _ => cs) /\
                       map id cs = [1; 2; 3; 4; 5] /\
                       Forall nonNegativeFields cs)).
  { destruct (assoc "counters" fields) as [[| | | |items|]|];
      try (exists skip; split; [reflexivity | left; reflexivity]).
    destruct (hydrateCounters items (counters initialState)) as [cs|] eqn:E;
      [|discriminate].
    apply hydrateCounters_shape in E. destruct E as [Hids Hnn].
    exists (setCounters (fun _ => cs)). split; [reflexivity|].
    right. exists cs. split; [reflexivity|]. split; [exact Hids|].
    apply Hnn. exact nonNegativeFields_initial. }
  destruct Hc as [restore [Hr Hshape]].
  rewrite Hr in H. injection H as <-.
  destruct Hshape as [->|[cs [-> [Hids Hnn]]]];
    destruct (asNumber (assoc "globalElapsed" fields)) as [n|];
    destruct (asBoolean (assoc "globalRunning" fields)) as [b|];
    destruct (asNonNegative (assoc "filterStartEvents" fields)) as [k|] eqn:Ek;
    try (apply asNonNegative_some in Ek);
    unfold wellFormed; simpl;
    (split; [reflexivity|]);
    (split; [first [reflexivity | exact Hids]|]);
    (split; [first [exact nonNegativeFields_initial | exact Hnn] | lia]).
Qed.

Lemma tickCounter_shape (c : CounterState) :
  id (tickCounter c) = id c /\
  (nonNegativeFields c -> nonNegativeFields (tickCounter c)).
Proof.
  unfold tickCounter, nonNegativeFields.
  destruct (isRunning c); simpl; split; auto; lia.
Qed.

Lemma toggleCounter_shape (i pauseNow : Z) (allow : bool) (c : CounterState) :
  nonNegativeFields c -> nonNegativeFields (toggleCounter i pauseNow allow c).
Proof.
  unfold toggleCounter, nonNegativeFields.
  destruct (id c =? i), (isRunning c), allow; simpl; lia.
Qed.

Lemma clearCounter_shape (i : Z) (c : CounterState) :
  id (clearCounter i c) = id c /\
  (nonNegativeFields c -> nonNegativeFields (clearCounter i c)).
Proof.
  unfold clearCounter, nonNegativeFields.
  destruct (id c =? i); simpl; split; auto; lia.
Qed.

Lemma map_id_preserved (f : CounterState -> CounterState) (cs : list CounterState) :
  (forall c, id (f c) = id c) -> map id (map f cs) = map id cs.
Proof.
  intros H. rewrite map_map. apply map_ext. exact H.
Qed.

Lemma wellFormed_step (e : Event) (s : State) :
  wellFormed s -> wellFormed (fst (step e s)).
Proof.
  unfold wellFormed. intros [Hh [Hids [Hnn Hf]]].
  destruct e; simpl.
  8: { unfold handleToggleCounter. destruct (globalRunning s) eqn:Hrun; simpl.
       - rewrite andThen_fst.
         set (allow := allowFilterIncrementPrecomputed i now s).
         clearbody allow.
         destruct s as [ge gr cs hy fse ar fr].
         destruct allow; unfold_handlers; simpl in *; split_ifs;
           (split; [assumption|]);
           (split; [rewrite map_id_preserved;
                    [assumption | intros c; apply toggleCounter_id]|]);
           (split; [apply Forall_map_preserved;
                    [intros c; apply toggleCounter_shape | assumption]
                   | lia]).
       - auto. }
  all: destruct s as [ge gr cs hy fse ar fr]; unfold_handlers; simpl in *;
    split_ifs; auto.
  - split; [assumption|]. split; [|split; [|assumption]].
    + rewrite map_id_preserved; [assumption | intros c; apply tickCounter_shape].
    + apply Forall_map_preserved; [intros c; apply tickCounter_shape | assumption].
  - split; [assumption|]. split; [reflexivity|].
    split; [exact nonNegativeFields_initial | lia].
  - split; [assumption|]. split; [reflexivity|].
    split; [exact nonNegativeFields_initial | lia].
  - split; [assumption|]. split; [reflexivity|].
    split; [exact nonNegativeFields_initial | lia].
  - split; [assumption|]. split; [reflexivity|].
    split; [exact nonNegativeFields_initial | lia].
  - split; [assumption|]. split; [|split; [|assumption]].
    + rewrite map_id_preserved; [assumption | intros c; apply clearCounter_shape].
    + apply Forall_map_preserved; [intros c; apply clearCounter_shape | assumption].
Qed.

Lemma reloaded_same (c initial : CounterState) :
  nonNegativeFields c ->
  id initial = id c ->
  lastPauseTimestamp initial = None ->
  reloaded c initial = c.
Proof.
  unfold nonNegativeFields, reloaded. intros [He [Hs Hf]] Hid Hl.
  destruct c as [ci ce cr cem csc cl cf]. simpl in *.
  rewrite Hid, Hl.
  replace (ce >=? 0) with true by lia.
  replace (csc >=? 0) with true by lia.
  replace (cf >=? 0) with true by lia.
  destruct cl; reflexivity.
Qed.

Lemma reloadAll_initial (cs : list CounterState) :
  map id cs = [1; 2; 3; 4; 5] ->
  Forall nonNegativeFields cs ->
  reloadAll cs createInitialCounters = cs.
Proof.
  intros Hids Hnn.
  destruct cs as [|c1 [|c2 [|c3 [|c4 [|c5 [|c6 cs]]]]]]; try discriminate.
  simpl in Hids. injection Hids as H1 H2 H3 H4 H5.
  inversion Hnn as [|? ? N1 Hnn1]; subst.
  inversion Hnn1 as [|? ? N2 Hnn2]; subst.
  inversion Hnn2 as [|? ? N3 Hnn3]; subst.
  inversion Hnn3 as [|? ? N4 Hnn4]; subst.
  inversion Hnn4 as [|? ? N5 _]; subst.
  unfold reloadAll, createInitialCounters, findCounter. simpl.
  rewrite H1, H2, H3, H4, H5. simpl.
  rewrite !reloaded_same by (simpl; auto).
  reflexivity.
Qed.

(** Rehydrating a new process from the payload of a well-formed state. *)
Lemma hydrate_payload_wellFormed (s : State) :
  wellFormed s ->
  hydrate (StoredJson (payload s)) initialState =
  Restored
    {| globalElapsed := globalElapsed s;
       globalRunning := globalRunning s;
       counters := counters s;
       isHydrated := true;
       filterStartEvents := filterStartEvents s;
       alarmSoundRef := false;
       filterSoundRef := false |}.
Proof.
  intros [Hh [Hids [Hnn Hf]]]. rewrite hydrate_payload.
  simpl counters. rewrite reloadAll_initial by assumption.
  replace (filterStartEvents s >=? 0) with true by lia.
  reflexivity.
Qed.

Lemma wellFormed_run (stored : Stored) (s0 : State) (evs : list Event) :
  hydrate stored initialState = Restored s0 -> wellFormed (run evs s0).
Proof.
  intros H. apply run_invariant.
  - eapply wellFormed_hydrate. exact H.
  - intros e s. apply wellFormed_step.
Qed.

(** C10. Whatever the store held at launch, for every state [s] the engine
    reaches afterwards, the persist effect writes [payload s], and a new
    process rehydrating from that payload restores a state with the same
    [globalElapsed], [globalRunning], [filterStartEvents] and the same
    five counters, field for field. *)
Theorem persist_rehydrate_roundtrip (stored : Stored) (s0 : State)
        (evs : list Event) :
  hydrate stored initialState = Restored s0 ->
  let s := run evs s0 in
  persistEffect s = Some (payload s) /\
  exists s',
    hydrate (StoredJson (payload s)) initialState = Restored s' /\
    globalElapsed s' = globalElapsed s /\
    globalRunning s' = globalRunning s /\
    filterStartEvents s' = filterStartEvents s /\
    counters s' = counters s /\
    snapshot s' = snapshot s.
Proof.
  intros H s.
  pose proof (wellFormed_run stored s0 evs H) as Hwf. fold s in Hwf.
  split.
  - unfold persistEffect. destruct Hwf as [Hh _]. rewrite Hh. reflexivity.
  - eexists. split; [apply hydrate_payload_wellFormed; exact Hwf|].
    repeat split.
Qed.

Lemma persist_rehydrate_roundtrip_witness :
  hydrate StoredNothing initialState = Restored freshState /\
  exists s',
    hydrate (StoredJson (payload pausedAt5000)) initialState = Restored s' /\
    snapshot s' = snapshot pausedAt5000.
Proof.
  split; [reflexivity|].
  destruct (persist_rehydrate_roundtrip StoredNothing freshState
              [EvActivationYes; EvToggleCounter 1 0 0; EvCounterTick;
               EvToggleCounter 1 5000 5000] eq_refl)
    as [_ [s' [Hs' [_ [_ [_ [_ Hsnap]]]]]]].
  exists s'. split; [exact Hs' | exact Hsnap].
Defined.

(** * Further properties of the screen logic *)

(** ** [formatTime] *)

Lemma two_digit_fields_checked :
  forallb (fun a =>
             (String.length (padStart 2 (toString (Z.of_nat a))) =? 2)%nat &&
             forallb (fun b =>
                        implb (String.eqb (padStart 2 (toString (Z.of_nat a)))
                                          (padStart 2 (toString (Z.of_nat b))))
                              (a =? b)%nat)
                     (seq 0 100))
          (seq 0 100) = true.
Proof. vm_compute. reflexivity. Qed.

Lemma below_100_in_seq (n : Z) :
  0 <= n < 100 -> In (Z.to_nat n) (seq 0 100) /\ Z.of_nat (Z.to_nat n) = n.
Proof.
  intros H. split; [apply in_seq; lia | lia].
Qed.

Lemma padStart_two_digits (n : Z) :
  0 <= n < 100 -> String.length (padStart 2 (toString n)) = 2%nat.
Proof.
  intros H. destruct (below_100_in_seq n H) as [Hin Hn].
  pose proof two_digit_fields_checked as Hc.
  rewrite forallb_forall in Hc. specialize (Hc _ Hin).
  apply andb_true_iff in Hc. destruct Hc as [Hlen _].
  rewrite Hn in Hlen. now apply Nat.eqb_eq in Hlen.
Qed.

Lemma padStart_two_digits_inj (n m : Z) :
  0 <= n < 100 -> 0 <= m < 100 ->
  padStart 2 (toString n) = padStart 2 (toString m) -> n = m.
Proof.
  intros Hn Hm Heq.
  destruct (below_100_in_seq n Hn) as [Hin Hn'].
  destruct (below_100_in_seq m Hm) as [Him Hm'].
  pose proof two_digit_fields_checked as Hc.
  rewrite forallb_forall in Hc. specialize (Hc _ Hin).
  apply andb_true_iff in Hc. destruct Hc as [_ Hall].
  rewrite forallb_forall in Hall. specialize (Hall _ Him).
  rewrite Hn', Hm', Heq, String.eqb_refl in Hall. simpl in Hall.
  apply Nat.eqb_eq in Hall. lia.
Qed.

Lemma two_chars (s : string) :
  String.length s = 2%nat -> exists a b, s = String a (String b EmptyString).
Proof.
  destruct s as [|a [|b [|c s]]]; simpl; try discriminate.
  intros _. exists a, b. reflexivity.
Qed.

Lemma time_fields_in_range (t : Z) :
  0 <= t < 360000 ->
  0 <= t / 3600 < 100 /\
  0 <= Z.rem t 3600 / 60 < 60 /\
  0 <= Z.rem t 60 < 60 /\
  t = 3600 * (t / 3600) + 60 * (Z.rem t 3600 / 60) + Z.rem t 60.
Proof.
  intros H.
  rewrite !Z.rem_mod_nonneg by lia.
  Z.to_euclidean_division_equations. lia.
Qed.

Lemma formatTime_fields (t t' : Z) :
  0 <= t < 360000 ->
  0 <= t' < 360000 ->
  String.length (formatTime t) = 8%nat /\
  (formatTime t = formatTime t' -> t = t').
Proof.
  intros Ht Ht'.
  destruct (time_fields_in_range t Ht) as [Hh [Hm [Hs Hsum]]].
  destruct (time_fields_in_range t' Ht') as [Hh' [Hm' [Hs' Hsum']]].
  assert (Hm100 : 0 <= Z.rem t 3600 / 60 < 100) by lia.
  assert (Hs100 : 0 <= Z.rem t 60 < 100) by lia.
  assert (Hm100' : 0 <= Z.rem t' 3600 / 60 < 100) by lia.
  assert (Hs100' : 0 <= Z.rem t' 60 < 100) by lia.
  unfold formatTime.
  pose proof (padStart_two_digits_inj _ _ Hh Hh') as Ih.
  pose proof (padStart_two_digits_inj _ _ Hm100 Hm100') as Im.
  pose proof (padStart_two_digits_inj _ _ Hs100 Hs100') as Is.
  destruct (two_chars _ (padStart_two_digits _ Hh)) as [a1 [a2 Ea]].
  destruct (two_chars _ (padStart_two_digits _ Hm100)) as [b1 [b2 Eb]].
  destruct (two_chars _ (padStart_two_digits _ Hs100)) as [c1 [c2 Ec]].
  destruct (two_chars _ (padStart_two_digits _ Hh')) as [a1' [a2' Ea']].
  destruct (two_chars _ (padStart_two_digits _ Hm100')) as [b1' [b2' Eb']].
  destruct (two_chars _ (padStart_two_digits _ Hs100')) as [c1' [c2' Ec']].
  rewrite Ea, Eb, Ec, Ea', Eb', Ec' in *.
  simpl. split; [reflexivity|].
  intros Heq. injection Heq as -> -> -> -> -> ->.
  specialize (Ih eq_refl). specialize (Im eq_refl). specialize (Is eq_refl).
  lia.
Qed.

(** X1. For a duration of less than 100 hours, [formatTime] shows exactly
    eight characters, and two such durations that are shown the same are
    equal. *)
Theorem formatTime_eight_chars_injective (t t' : Z) :
  0 <= t < 360000 ->
  0 <= t' < 360000 ->
  String.length (formatTime t) = 8%nat /\
  (formatTime t = formatTime t' -> t = t').
Proof.
  intros Ht Ht'. exact (formatTime_fields t t' Ht Ht').
Qed.

Lemma formatTime_eight_chars_injective_witness :
  formatTime 3725 = "01:02:05"%string /\
  String.length (formatTime 3725) = 8%nat.
Proof.
  split; [reflexivity|].
  apply (formatTime_eight_chars_injective 3725 14400); lia.
Defined.

(** X2. After every sequence of events from first launch the global timer
    is shown with exactly eight characters, and it reads like the full
    interval (04:00:00) only when [globalElapsed] is the interval. *)
Theorem global_timer_display_width (evs : list Event) :
  let s := run evs freshState in
  String.length (formatTime (globalElapsed s)) = 8%nat /\
  (formatTime (globalElapsed s) = formatTime GLOBAL_ALARM_INTERVAL_SECONDS ->
   globalElapsed s = GLOBAL_ALARM_INTERVAL_SECONDS).
Proof.
  intros s. destruct (globalInRange_run evs) as [_ Hr]. fold s in Hr.
  rewrite interval_value in *.
  apply formatTime_fields; lia.
Qed.

(** ** Repeated ticks *)

Lemma run_cons (e : Event) (evs : list Event) (s : State) :
  run (e :: evs) s = run evs (fst (step e s)).
Proof. reflexivity. Qed.

Lemma globalTick_step_fields (s : State) :
  isHydrated s = true -> globalRunning s = true ->
  let s' := fst (step EvGlobalTick s) in
  isHydrated s' = true /\ globalRunning s' = true /\
  counters s' = counters s /\ filterStartEvents s' = filterStartEvents s /\
  globalElapsed s' =
    (if globalElapsed s + 1 >=? GLOBAL_ALARM_INTERVAL_SECONDS
     then GLOBAL_ALARM_INTERVAL_SECONDS else globalElapsed s + 1).
Proof.
  intros Hh Hr. simpl. rewrite Hh, Hr. simpl. auto.
Qed.

Lemma repeat_globalTick (n : nat) (s : State) :
  isHydrated s = true ->
  globalRunning s = true ->
  globalElapsed s <= GLOBAL_ALARM_INTERVAL_SECONDS ->
  let s' := run (repeat EvGlobalTick n) s in
  globalElapsed s' =
    Z.min (globalElapsed s + Z.of_nat n) GLOBAL_ALARM_INTERVAL_SECONDS /\
  counters s' = counters s /\
  filterStartEvents s' = filterStartEvents s /\
  globalRunning s' = true /\
  isHydrated s' = true /\
  alarmSoundRef s' = alarmSoundRef s.
Proof.
  revert s. induction n as [|n IH]; intros s Hh Hr Hle.
  - simpl. repeat split; auto. lia.
  - cbn [repeat]. rewrite run_cons.
    destruct (globalTick_step_fields s Hh Hr) as [Hh' [Hr' [Hc [Hf Hg]]]].
    assert (Ha : alarmSoundRef (fst (step EvGlobalTick s)) = alarmSoundRef s).
    { simpl. rewrite Hh, Hr. reflexivity. }
    rewrite interval_value in *.
    assert (Hle' : globalElapsed (fst (step EvGlobalTick s)) <= 14400).
    { rewrite Hg. destruct (globalElapsed s + 1 >=? 14400) eqn:E; lia. }
    destruct (IH _ Hh' Hr' Hle') as [Ig [Ic [If [Ir [Ih Ia]]]]].
    cbv zeta. rewrite Ig, Ic, If, Ir, Ih, Ia, Hc, Hf, Hg, Ha.
    repeat split.
    destruct (globalElapsed s + 1 >=? 14400) eqn:E; lia.
Qed.

(** X3. With the service running, [n] ticks of the global interval in a
    row (no alarm effect in between) bring [globalElapsed] to
    [min (globalElapsed + n) GLOBAL_ALARM_INTERVAL_SECONDS]: the timer
    stops at the interval and stays there; counters and accumulator are
    not touched. *)
Theorem global_ticks_accumulate (n : nat) (s : State) :
  isHydrated s = true ->
  globalRunning s = true ->
  globalElapsed s <= GLOBAL_ALARM_INTERVAL_SECONDS ->
  let s' := run (repeat EvGlobalTick n) s in
  globalElapsed s' =
    Z.min (globalElapsed s + Z.of_nat n) GLOBAL_ALARM_INTERVAL_SECONDS /\
  counters s' = counters s /\
  filterStartEvents s' = filterStartEvents s /\
  globalRunning s' = true.
Proof.
  intros Hh Hr Hle.
  destruct (repeat_globalTick n s Hh Hr Hle) as [H1 [H2 [H3 [H4 _]]]].
  cbv zeta. auto.
Qed.

Lemma global_ticks_accumulate_witness :
  globalElapsed (run (repeat EvGlobalTick 5) aboutToAlarm) = 14400.
Proof.
  apply (global_ticks_accumulate 5 aboutToAlarm eq_refl eq_refl).
  vm_compute. discriminate.
Defined.

Lemma tickedTimes_refl (c : CounterState) : tickedTimes 0 c c.
Proof.
  unfold tickedTimes. split; intros H; [split; [simpl; lia | exact H] | reflexivity].
Qed.

Lemma tickedTimes_succ (n : nat) (c c' : CounterState) :
  tickedTimes n (tickCounter c) c' -> tickedTimes (S n) c c'.
Proof.
  unfold tickedTimes, tickCounter.
  destruct (isRunning c) eqn:E; simpl; intros [Hrun Hidle]; split; intros H;
    try discriminate.
  - destruct (Hrun eq_refl) as [He Hr]. split; [lia | exact Hr].
  - apply Hidle. exact E.
Qed.

Lemma Forall2_map_left {A} (R R' : A -> A -> Prop) (f : A -> A) (l l' : list A) :
  (forall a b, R (f a) b -> R' a b) ->
  Forall2 R (map f l) l' -> Forall2 R' l l'.
Proof.
  intros H. revert l'. induction l as [|a l IH]; simpl; intros l' HF;
    inversion HF; subst; constructor; auto.
Qed.

Lemma Forall2_same {A} (R : A -> A -> Prop) (l : list A) :
  (forall a, R a a) -> Forall2 R l l.
Proof.
  intros H. induction l; constructor; auto.
Qed.

(** X4. [n] ticks of the counter interval in a row add exactly [n] seconds
    to every counter that was running, which is still running, and return
    every other counter unchanged. *)
Theorem counter_ticks_accumulate (n : nat) (s : State) :
  isHydrated s = true ->
  Forall2 (tickedTimes n) (counters s)
          (counters (run (repeat EvCounterTick n) s)).
Proof.
  revert s. induction n as [|n IH]; intros s Hh.
  - simpl. apply Forall2_same. exact tickedTimes_refl.
  - cbn [repeat]. rewrite run_cons.
    assert (Hh' : isHydrated (fst (step EvCounterTick s)) = true).
    { simpl. rewrite Hh. simpl. destruct (isAnyCounterRunning s); exact Hh. }
    specialize (IH _ Hh').
    rewrite step_counterTick_counters in IH by exact Hh.
    eapply Forall2_map_left; [|exact IH].
    intros a b. apply tickedTimes_succ.
Qed.

Lemma counter_ticks_accumulate_witness :
  Forall2 (tickedTimes 7) (counters onePausedOneRunning)
          (counters (run (repeat EvCounterTick 7) onePausedOneRunning)).
Proof.
  apply (counter_ticks_accumulate 7 onePausedOneRunning). reflexivity.
Defined.

(** ** Sound protocol *)

Lemma soundTrack_app (k : SoundKind) (l1 l2 : list Action) (loaded : bool) :
  soundTrack k (l1 ++ l2) loaded =
  match soundTrack k l1 loaded with
  | Some loaded' => soundTrack k l2 loaded'
  | None => None
  end.
Proof.
  revert loaded. induction l1 as [|a l1 IH]; intros loaded; simpl.
  - reflexivity.
  - destruct a; try apply IH;
      destruct (sameKind k k0); try apply IH;
      destruct loaded; try reflexivity; apply IH.
Qed.

Lemma run_fields_log (e : Event) (evs : list Event) (s : State) :
  runLog (e :: evs) s = snd (step e s) ++ runLog evs (fst (step e s)).
Proof. reflexivity. Qed.

Lemma step_soundTrack (k : SoundKind) (e : Event) (s : State) :
  soundTrack k (snd (step e s)) (soundRef k s)
  = Some (soundRef k (fst (step e s))).
Proof.
  destruct e; simpl.
  8: { unfold handleToggleCounter.
       destruct (globalRunning s); simpl; [|reflexivity].
       destruct (allowFilterIncrementPrecomputed i now s);
         destruct s as [ge gr cs hy fse ar fr]; destruct k, ar, fr;
         unfold_handlers; simpl; split_ifs; reflexivity. }
  all: destruct s as [ge gr cs hy fse ar fr]; destruct k, ar, fr;
    unfold_handlers; simpl; split_ifs; reflexivity.
Qed.

Lemma runLog_soundTrack (k : SoundKind) (evs : list Event) (s : State) :
  soundTrack k (runLog evs s) (soundRef k s) = Some (soundRef k (run evs s)).
Proof.
  revert s. induction evs as [|e evs IH]; intros s.
  - reflexivity.
  - rewrite run_fields_log, run_cons, soundTrack_app, step_soundTrack.
    apply IH.
Qed.

(** X5. Along every sequence of events from first launch, and for each of
    the two sounds, the audio calls follow the load protocol: a sound is
    created only while none is loaded, and stopped, unloaded, tuned or
    played only while one is loaded; the ref at the end tells whether one
    is loaded. *)
Theorem sounds_follow_load_protocol (k : SoundKind) (evs : list Event) :
  soundTrack k (runLog evs freshState) false
  = Some (soundRef k (run evs freshState)).
Proof.
  pose proof (runLog_soundTrack k evs freshState) as H.
  destruct k; exact H.
Qed.

(** ** The engine-level invariant *)

Lemma coherent_initial : Forall coherent createInitialCounters.
Proof.
  unfold createInitialCounters. simpl.
  repeat (apply Forall_cons;
          [unfold coherent; simpl; intuition (try discriminate; try lia) |]).
  apply Forall_nil.
Qed.

Lemma coherent_tickCounter (c : CounterState) :
  coherent c -> coherent (tickCounter c).
Proof.
  unfold coherent, tickCounter.
  destruct (isRunning c) eqn:E; simpl; [|rewrite E; tauto].
  intros [Hs [He [Hr [Hem [Hf Hp]]]]].
  destruct (Hr eq_refl) as [Hne Hl].
  repeat split; try assumption; try lia; try discriminate; auto.
Qed.

Lemma coherent_clearCounter (i : Z) (c : CounterState) :
  coherent c -> coherent (clearCounter i c).
Proof.
  unfold coherent, clearCounter.
  destruct (id c =? i); simpl; [|tauto].
  intros _. intuition (try discriminate; try lia).
Qed.

Lemma coherent_toggleCounter (i pauseNow : Z) (allow : bool) (c : CounterState) :
  (id c = i -> isRunning c = false -> isEmpty c = true -> allow = true) ->
  coherent c -> coherent (toggleCounter i pauseNow allow c).
Proof.
  unfold coherent, toggleCounter. intros Hallow.
  destruct (id c =? i) eqn:Ei; simpl; [|tauto].
  apply Z.eqb_eq in Ei.
  intros [Hs [He [Hr [Hem [Hf Hp]]]]].
  destruct (isRunning c) eqn:Er; simpl.
  - destruct (Hr eq_refl) as [Hne Hl].
    repeat split; try assumption; try discriminate; try congruence; auto.
  - repeat split; try assumption; try discriminate; try reflexivity.
    intros _. destruct (isEmpty c) eqn:Ee.
    + rewrite (Hallow Ei eq_refl eq_refl).
      destruct (Hem eq_refl) as [_ [H0 _]]. lia.
    + specialize (Hf eq_refl). destruct allow; lia.
Qed.

Lemma findCounter_unique (cs : list CounterState) (c : CounterState) :
  NoDup (map id cs) -> In c cs -> findCounter (id c) cs = Some c.
Proof.
  unfold findCounter.
  induction cs as [|a cs IH]; simpl; intros Hnd Hin; [contradiction|].
  inversion Hnd as [|x l Hnotin Hnd']; subst.
  destruct Hin as [->|Hin].
  - now rewrite Z.eqb_refl.
  - destruct (id a =? id c) eqn:E.
    + apply Z.eqb_eq in E. exfalso. apply Hnotin. rewrite E.
      apply in_map. exact Hin.
    + apply IH; assumption.
Qed.

Lemma NoDup_five_ids : NoDup [1; 2; 3; 4; 5].
Proof.
  repeat (apply NoDup_cons; [simpl; intuition lia |]). apply NoDup_nil.
Qed.

Lemma allow_for_empty (i now : Z) (s : State) (c : CounterState) :
  map id (counters s) = [1; 2; 3; 4; 5] ->
  In c (counters s) ->
  id c = i -> isRunning c = false -> isEmpty c = true ->
  allowFilterIncrementPrecomputed i now s = true.
Proof.
  intros Hids Hin Hid Hr He. unfold allowFilterIncrementPrecomputed.
  rewrite <- Hid, findCounter_unique; [rewrite Hr, He; reflexivity | | exact Hin].
  rewrite Hids. exact NoDup_five_ids.
Qed.

Lemma Forall_map_from_In {A} (P : A -> Prop) (f : A -> A) (l : list A) :
  (forall a, In a l -> P a -> P (f a)) -> Forall P l -> Forall P (map f l).
Proof.
  intros Hf H. apply Forall_forall. intros b Hb.
  apply in_map_iff in Hb. destruct Hb as [a [<- Ha]].
  apply Hf; [exact Ha|]. rewrite Forall_forall in H. auto.
Qed.

Lemma existsb_isRunning_map (f : CounterState -> CounterState)
      (cs : list CounterState) :
  (forall c, isRunning (f c) = true -> isRunning c = true) ->
  existsb isRunning (map f cs) = true -> existsb isRunning cs = true.
Proof.
  intros Hf. induction cs as [|c cs IH]; simpl; [auto|].
  intros H. apply orb_true_iff in H. apply orb_true_iff.
  destruct H as [H|H]; [left; auto | right; auto].
Qed.

Lemma tickCounter_isRunning (c : CounterState) :
  isRunning (tickCounter c) = isRunning c.
Proof.
  unfold tickCounter. destruct (isRunning c) eqn:E; simpl; auto.
Qed.

Lemma clearCounter_isRunning (i : Z) (c : CounterState) :
  isRunning (clearCounter i c) = true -> isRunning c = true.
Proof.
  unfold clearCounter. destruct (id c =? i); simpl; [discriminate | auto].
Qed.

Lemma engineCoherent_freshState : engineCoherent freshState.
Proof.
  split; [reflexivity|]. split; [exact coherent_initial | discriminate].
Qed.

Lemma engineCoherent_step (e : Event) (s : State) :
  engineCoherent s -> engineCoherent (fst (step e s)).
Proof.
  unfold engineCoherent, isAnyCounterRunning. intros [Hids [Hco Hrun]].
  destruct e; simpl.
  8: { unfold handleToggleCounter. destruct (globalRunning s) eqn:Hg; simpl.
       - rewrite andThen_fst.
         pose proof (allow_for_empty i now s) as Hallow.
         set (allow := allowFilterIncrementPrecomputed i now s) in *.
         clearbody allow.
         destruct s as [ge gr cs hy fse ar fr].
         destruct allow; unfold_handlers; simpl in *; split_ifs;
           (split; [rewrite map_id_preserved;
                    [assumption | intros c; apply toggleCounter_id]|]);
           (split; [|auto]);
           (apply Forall_map_from_In; [|assumption]);
           intros c Hin; apply coherent_toggleCounter; intros; auto;
           eapply Hallow; eauto.
       - rewrite Hg. auto. }
  all: destruct s as [ge gr cs hy fse ar fr]; unfold_handlers; simpl in *;
    split_ifs; auto.
  - split; [|split].
    + rewrite map_id_preserved; [assumption | intros c; apply tickCounter_shape].
    + apply Forall_map_preserved; [apply coherent_tickCounter | assumption].
    + intros H. apply Hrun. eapply existsb_isRunning_map; [|exact H].
      intros c. now rewrite tickCounter_isRunning.
  - split; [reflexivity|]. split; [exact coherent_initial | discriminate].
  - split; [reflexivity|]. split; [exact coherent_initial | discriminate].
  - split; [reflexivity|]. split; [exact coherent_initial | discriminate].
  - split; [reflexivity|]. split; [exact coherent_initial | discriminate].
  - split; [|split].
    + rewrite map_id_preserved; [assumption | intros c; apply clearCounter_shape].
    + apply Forall_map_preserved; [apply coherent_clearCounter | assumption].
    + intros H. apply Hrun. eapply existsb_isRunning_map; [|exact H].
      intros c. apply clearCounter_isRunning.
Qed.

Lemma engineCoherent_run (evs : list Event) : engineCoherent (run evs freshState).
Proof.
  apply run_invariant.
  - exact engineCoherent_freshState.
  - intros e s. apply engineCoherent_step.
Qed.

(** X6. After every sequence of events from first launch, a counter runs
    only while the service is active. *)
Theorem counters_run_only_while_active (evs : list Event) :
  isAnyCounterRunning (run evs freshState) = true ->
  globalRunning (run evs freshState) = true.
Proof.
  destruct (engineCoherent_run evs) as [_ [_ H]]. exact H.
Qed.

Lemma counters_run_only_while_active_witness :
  isAnyCounterRunning onePausedOneRunning = true /\
  globalRunning onePausedOneRunning = true.
Proof.
  split; [reflexivity|].
  apply (counters_run_only_while_active
           [EvActivationYes; EvToggleCounter 1 0 0; EvToggleCounter 4 10 10;
            EvCounterTick; EvToggleCounter 1 20 20]).
  reflexivity.
Defined.

(** X7. After every sequence of events from first launch, each of the five
    counters satisfies: [startCount] is 0; a running counter is not empty
    and has no pause timestamp; an empty counter has elapsed 0, no filter
    click and no pause timestamp; a counter that is not empty has at least
    one filter click; a paused counter that is not empty has a pause
    timestamp. *)
Theorem reached_counters_coherent (evs : list Event) :
  map id (counters (run evs freshState)) = [1; 2; 3; 4; 5] /\
  Forall coherent (counters (run evs freshState)).
Proof.
  destruct (engineCoherent_run evs) as [H1 [H2 _]]. auto.
Qed.

(** X8. After every sequence of events from first launch, the debug panel
    never shows the dash for a counter: it always shows a number of
    seconds between 0 and 30 when the clock is not behind the pause
    timestamp. *)
Theorem debug_delay_never_dash (evs : list Event) (debugNow : Z)
        (c : CounterState) :
  In c (counters (run evs freshState)) ->
  secondsRemainingDisplay debugNow c <> RemainingDash /\
  ((forall t, lastPauseTimestamp c = Some t -> t <= debugNow) ->
   exists n, secondsRemainingDisplay debugNow c = RemainingSeconds n /\
             0 <= n <= 30).
Proof.
  intros Hin. destruct (engineCoherent_run evs) as [_ [Hco _]].
  rewrite Forall_forall in Hco. specialize (Hco c Hin).
  destruct Hco as [_ [_ [Hr [He [_ Hp]]]]].
  unfold secondsRemainingDisplay.
  destruct (isRunning c) eqn:Er; simpl.
  - split; [discriminate|]. intros _. exists 30. split; [reflexivity | lia].
  - destruct (lastPauseTimestamp c) as [t|] eqn:El.
    + split; [discriminate|]. intros Ht. specialize (Ht t eq_refl).
      exists (Z.max 0 (30 - (debugNow - t) / 1000)). split; [reflexivity|].
      assert (0 <= (debugNow - t) / 1000) by (apply Z.div_pos; lia).
      lia.
    + destruct (isEmpty c) eqn:Ee.
      * split; [discriminate|]. intros _. exists 30. split; [reflexivity | lia].
      * exfalso. apply (Hp eq_refl eq_refl). reflexivity.
Qed.

Lemma debug_delay_never_dash_witness :
  secondsRemainingDisplay 12000 (mkCounter 1 1 false false 0 (Some 5000) 1)
  <> RemainingDash.
Proof.
  apply (debug_delay_never_dash
           [EvActivationYes; EvToggleCounter 1 0 0; EvCounterTick;
            EvToggleCounter 1 5000 5000] 12000).
  left. reflexivity.
Defined.

(** X9. For a paused, non-empty counter, the debug countdown reads 0
    seconds exactly when toggling the counter at that instant would be a
    qualifying start. *)
Theorem countdown_zero_iff_resume_qualifies (s : State) (i now : Z)
        (target : CounterState) :
  findCounter i (counters s) = Some target ->
  isRunning target = false ->
  isEmpty target = false ->
  (secondsRemainingDisplay now target = RemainingSeconds 0 <->
   allowFilterIncrementPrecomputed i now s = true).
Proof.
  intros Hfind Hr He.
  rewrite (allow_iff_qualifies i now s target Hfind Hr).
  unfold secondsRemainingDisplay, qualifies. rewrite Hr, He. cbn [negb].
  destruct (lastPauseTimestamp target) as [t|]; cbv zeta.
  - split.
    + intros H.
      assert (H' : Z.max 0 (30 - (now - t) / 1000) = 0) by congruence.
      clear H. right. split; [reflexivity|].
      exists t. split; [reflexivity|].
      Z.to_euclidean_division_equations. lia.
    + intros [H|[_ [t' [Ht' Hge]]]]; [discriminate|].
      injection Ht' as <-. f_equal.
      Z.to_euclidean_division_equations. lia.
  - split; [discriminate|].
    intros [H|[_ [t' [Ht' _]]]]; discriminate.
Qed.

Lemma countdown_zero_iff_resume_qualifies_witness :
  secondsRemainingDisplay 35000 (mkCounter 1 1 false false 0 (Some 5000) 1)
    = RemainingSeconds 0 <->
  allowFilterIncrementPrecomputed 1 35000 pausedAt5000 = true.
Proof.
  apply (countdown_zero_iff_resume_qualifies pausedAt5000 1 35000
           (mkCounter 1 1 false false 0 (Some 5000) 1));
    reflexivity.
Defined.

(** ** Clearing, pausing and resuming *)

Lemma clearCounter_id (i : Z) (c : CounterState) : id (clearCounter i c) = id c.
Proof. apply clearCounter_shape. Qed.

Lemma clearCounter_others (i : Z) (c : CounterState) :
  othersUntouched i c (clearCounter i c).
Proof.
  unfold othersUntouched. split; [apply clearCounter_id|].
  intros Hne. unfold clearCounter.
  destruct (id c =? i) eqn:E; [apply Z.eqb_eq in E; contradiction | reflexivity].
Qed.

Lemma toggleCounter_others (i pauseNow : Z) (allow : bool) (c : CounterState) :
  othersUntouched i c (toggleCounter i pauseNow allow c).
Proof.
  unfold othersUntouched. split; [apply toggleCounter_id|].
  intros Hne. unfold toggleCounter.
  destruct (id c =? i) eqn:E; [apply Z.eqb_eq in E; contradiction | reflexivity].
Qed.

(** X10. Clearing counter [i] leaves every other counter, the global timer,
    the service flag and the accumulator as they are, logs one write of the
    counters, and leaves counter [i] empty with everything at zero; the next
    start of that counter always qualifies, however recently it was
    paused. *)
Theorem clear_resets_one_counter (s : State) (i now : Z) (target : CounterState) :
  findCounter i (counters s) = Some target ->
  let s1 := fst (handleClearCounter i s) in
  Forall2 (othersUntouched i) (counters s) (counters s1) /\
  findCounter i (counters s1) = Some (mkCounter i 0 false true 0 None 0) /\
  globalElapsed s1 = globalElapsed s /\
  globalRunning s1 = globalRunning s /\
  filterStartEvents s1 = filterStartEvents s /\
  snd (handleClearCounter i s) = [SetState VarCounters] /\
  allowFilterIncrementPrecomputed i now s1 = true.
Proof.
  intros Hfind s1.
  assert (Hf1 : findCounter i (counters s1)
                = Some (mkCounter i 0 false true 0 None 0)).
  { subst s1. simpl.
    rewrite findCounter_map by (intros c; apply clearCounter_id).
    rewrite Hfind. simpl. unfold clearCounter.
    rewrite (findCounter_id _ _ _ Hfind), Z.eqb_refl. reflexivity. }
  split; [|split; [exact Hf1|]].
  - subst s1. simpl. apply Forall2_map_same. apply clearCounter_others.
  - repeat split.
    unfold allowFilterIncrementPrecomputed. rewrite Hf1. reflexivity.
Qed.

Lemma clear_resets_one_counter_witness :
  let s1 := fst (handleClearCounter 1 pausedAt5000) in
  filterStartEvents s1 = filterStartEvents pausedAt5000 /\
  allowFilterIncrementPrecomputed 1 5001 s1 = true.
Proof.
  destruct (clear_resets_one_counter pausedAt5000 1 5001
              (mkCounter 1 1 false false 0 (Some 5000) 1) eq_refl)
    as [_ [_ [_ [_ [Hf [_ Ha]]]]]].
  split; [exact Hf | exact Ha].
Defined.

(** X11. Pausing a running, non-empty counter records the clock reading
    taken inside the updater, leaves the accumulator and the other counters
    unchanged, and the following resume qualifies exactly when it comes at
    least 30000 ms after that reading. *)
Theorem pause_then_resume_threshold (s : State) (i now0 pauseNow now : Z)
        (target : CounterState) :
  globalRunning s = true ->
  findCounter i (counters s) = Some target ->
  isRunning target = true ->
  isEmpty target = false ->
  let s1 := fst (handleToggleCounter i now0 pauseNow s) in
  findCounter i (counters s1) =
    Some (mkCounter (id target) (elapsed target) false false
                    (startCount target) (Some pauseNow) (filterClicks target)) /\
  Forall2 (othersUntouched i) (counters s) (counters s1) /\
  filterStartEvents s1 = filterStartEvents s /\
  globalRunning s1 = true /\
  (allowFilterIncrementPrecomputed i now s1 = true <-> 30000 <= now - pauseNow).
Proof.
  intros Hrun Hfind Hr He s1.
  assert (Hallow : allowFilterIncrementPrecomputed i now0 s = false).
  { unfold allowFilterIncrementPrecomputed. rewrite Hfind, Hr. reflexivity. }
  assert (Hc : counters s1 = map (toggleCounter i pauseNow false) (counters s)).
  { subst s1. rewrite toggle_running_counters by exact Hrun.
    now rewrite Hallow. }
  assert (Hf1 : findCounter i (counters s1) =
                Some (mkCounter (id target) (elapsed target) false false
                        (startCount target) (Some pauseNow)
                        (filterClicks target))).
  { rewrite Hc, findCounter_map by (intros c; apply toggleCounter_id).
    rewrite Hfind. simpl. unfold toggleCounter.
    rewrite (findCounter_id _ _ _ Hfind), Z.eqb_refl, Hr, He. reflexivity. }
  split; [exact Hf1|]. split; [|split; [|split]].
  - rewrite Hc. apply Forall2_map_same. apply toggleCounter_others.
  - subst s1. rewrite toggle_running_filterStartEvents by exact Hrun.
    now rewrite Hallow.
  - subst s1. unfold handleToggleCounter. rewrite Hrun, Hallow. simpl.
    destruct s; simpl in *. exact Hrun.
  - rewrite (allow_iff_qualifies i now s1 _ Hf1 eq_refl).
    unfold qualifies. simpl. split.
    + intros [H|[_ [t [Ht Hge]]]]; [discriminate|].
      injection Ht as <-. exact Hge.
    + intros H. right. split; [reflexivity|].
      exists pauseNow. split; [reflexivity | exact H].
Qed.

Lemma pause_then_resume_threshold_witness :
  allowFilterIncrementPrecomputed 4 30020
    (fst (handleToggleCounter 4 20 21 onePausedOneRunning)) = true
  <-> 30000 <= 30020 - 21.
Proof.
  apply (pause_then_resume_threshold onePausedOneRunning 4 20 21 30020
           (mkCounter 4 1 true false 0 None 1));
    reflexivity.
Defined.

(** ** The total of filter clicks *)

Lemma fold_clicks_shift (cs : list CounterState) (a : Z) :
  fold_left (fun sum counter => sum + filterClicks counter) cs a =
  a + fold_left (fun sum counter => sum + filterClicks counter) cs 0.
Proof.
  revert a. induction cs as [|c cs IH]; intros a; simpl; [lia|].
  rewrite IH, (IH (filterClicks c)). lia.
Qed.

Lemma map_absent_id (f : CounterState -> CounterState) (i : Z)
      (cs : list CounterState) :
  (forall c, id c <> i -> f c = c) ->
  ~ In i (map id cs) -> map f cs = cs.
Proof.
  intros Hf. induction cs as [|c cs IH]; simpl; intros Hn; [reflexivity|].
  rewrite Hf, IH; auto.
Qed.

Lemma findCounter_absent (i : Z) (cs : list CounterState) :
  ~ In i (map id cs) -> findCounter i cs = None.
Proof.
  unfold findCounter. induction cs as [|c cs IH]; simpl; intros Hn; [reflexivity|].
  destruct (id c =? i) eqn:E.
  - apply Z.eqb_eq in E. exfalso. auto.
  - apply IH. auto.
Qed.

Lemma clicks_after_map_one (f : CounterState -> CounterState) (i : Z)
      (cs : list CounterState) :
  (forall c, id c <> i -> f c = c) ->
  NoDup (map id cs) ->
  fold_left (fun sum counter => sum + filterClicks counter) (map f cs) 0 =
  fold_left (fun sum counter => sum + filterClicks counter) cs 0 +
  match findCounter i cs with
  | Some t => filterClicks (f t) - filterClicks t
  | None => 0
  end.
Proof.
  intros Hf. induction cs as [|c cs IH]; simpl; intros Hnd; [reflexivity|].
  inversion Hnd as [|x l Hnotin Hnd']; subst.
  rewrite (fold_clicks_shift (map f cs)), (fold_clicks_shift cs (filterClicks c)).
  unfold findCounter. simpl. destruct (id c =? i) eqn:E.
  - apply Z.eqb_eq in E. rewrite E in Hnotin.
    rewrite (map_absent_id f i cs Hf Hnotin). lia.
  - apply Z.eqb_neq in E. rewrite (Hf c E).
    fold (findCounter i cs). rewrite IH by exact Hnd'. lia.
Qed.

Lemma fold_clicks_map_same (f : CounterState -> CounterState)
      (cs : list CounterState) (a : Z) :
  (forall c, filterClicks (f c) = filterClicks c) ->
  fold_left (fun sum counter => sum + filterClicks counter) (map f cs) a =
  fold_left (fun sum counter => sum + filterClicks counter) cs a.
Proof.
  intros Hf. revert a. induction cs as [|c cs IH]; intros a; simpl; [reflexivity|].
  rewrite Hf. apply IH.
Qed.

(** X12. With the five counters in place and the service running, a toggle
    raises the total of filter clicks by exactly 1 when it is a qualifying
    start and leaves it unchanged otherwise (pause, or resume that does not
    qualify); clearing a counter lowers the total by that counter's clicks;
    a tick of the counter interval leaves it unchanged. *)
Theorem total_filter_clicks_changes (s : State) (i now pauseNow : Z) :
  map id (counters s) = [1; 2; 3; 4; 5] ->
  globalRunning s = true ->
  totalFilterClicks (fst (handleToggleCounter i now pauseNow s)) =
    totalFilterClicks s +
    (if allowFilterIncrementPrecomputed i now s then 1 else 0) /\
  totalFilterClicks (fst (handleClearCounter i s)) =
    totalFilterClicks s -
    match findCounter i (counters s) with
    | Some target => filterClicks target
    | None => 0
    end /\
  totalFilterClicks (fst (counterTick s)) = totalFilterClicks s.
Proof.
  intros Hids Hrun.
  assert (Hnd : NoDup (map id (counters s))).
  { rewrite Hids. exact NoDup_five_ids. }
  unfold totalFilterClicks. split; [|split].
  - rewrite toggle_running_counters by exact Hrun.
    rewrite (clicks_after_map_one _ i) by
      (try exact Hnd; intros c Hc; apply toggleCounter_others; exact Hc).
    unfold allowFilterIncrementPrecomputed.
    destruct (findCounter i (counters s)) as [t|] eqn:Hfind; [|reflexivity].
    pose proof (findCounter_id _ _ _ Hfind) as Hid.
    unfold toggleCounter. rewrite Hid, Z.eqb_refl. simpl.
    destruct (isRunning t); simpl; [lia|].
    destruct (isEmpty t || _); simpl; lia.
  - simpl. rewrite (clicks_after_map_one _ i) by
      (try exact Hnd; intros c Hc; apply clearCounter_others; exact Hc).
    destruct (findCounter i (counters s)) as [t|] eqn:Hfind; [|lia].
    pose proof (findCounter_id _ _ _ Hfind) as Hid.
    unfold clearCounter. rewrite Hid, Z.eqb_refl. simpl. lia.
  - simpl. apply fold_clicks_map_same.
    intros c. unfold tickCounter. destruct (isRunning c); reflexivity.
Qed.

Lemma total_filter_clicks_changes_witness :
  totalFilterClicks pausedAt5000 = 1 /\
  totalFilterClicks (fst (handleToggleCounter 1 35000 35000 pausedAt5000)) = 2.
Proof.
  split; [reflexivity|].
  apply (total_filter_clicks_changes pausedAt5000 1 35000 35000);
    reflexivity.
Defined.

(** ** Rehydration: failure and shape *)

Lemma findPersisted_threw (items : list json) (i : Z) :
  findPersisted items i = Threw -> In JNull items.
Proof.
  induction items as [|item rest IH]; simpl; [discriminate|].
  destruct item; try (intros _; left; reflexivity);
    (destruct (asNumber _) as [m|];
     [destruct (m =? i); [discriminate|] |]; intros H; right; auto).
Qed.

Lemma hydrateCounters_none (items : list json) (current : list CounterState) :
  hydrateCounters items current = None -> In JNull items.
Proof.
  induction current as [|initial rest IH]; simpl; [discriminate|].
  destruct (findPersisted items (id initial)) eqn:E.
  - destruct (hydrateCounters items rest); [discriminate | auto].
  - destruct (hydrateCounters items rest); [discriminate | auto].
  - intros _. eapply findPersisted_threw. exact E.
Qed.

(** X13. Rehydration fails only in one way: the stored value is an object
    whose [counters] property is an array containing [null]. Every other
    store content (nothing, unreadable, unparsable, any other JSON value)
    gives a restored state. *)
Theorem hydrate_throws_only_on_null_item (stored : Stored) (s : State) :
  hydrate stored s = UpdaterThrew ->
  exists parsed items,
    stored = StoredJson parsed /\
    getProp parsed "counters" = Some (JArr items) /\
    In JNull items.
Proof.
  intros H.
  destruct stored as [| | |parsed]; try discriminate.
  exists parsed.
  assert (Hr : restoreCounters parsed s = None).
  { unfold hydrate in H. destruct parsed; try discriminate;
      destruct (restoreCounters _ s); try discriminate; reflexivity. }
  unfold restoreCounters in Hr.
  destruct (getProp parsed "counters") as [[| | | |items|]|]; try discriminate.
  exists items. split; [reflexivity|]. split; [reflexivity|].
  destruct (hydrateCounters items (counters s)) eqn:E; [discriminate|].
  eapply hydrateCounters_none. exact E.
Qed.

Lemma hydrate_throws_only_on_null_item_witness :
  exists parsed items,
    StoredJson (JObj [("counters"%string, JArr [JNull])]) = StoredJson parsed /\
    getProp parsed "counters" = Some (JArr items) /\
    In JNull items.
Proof.
  apply (hydrate_throws_only_on_null_item _ initialState). reflexivity.
Defined.

(** X14. Whatever the store holds, a launch that restores a state restores
    one that is marked hydrated, has the five counters 1..5 in order with
    non-negative [elapsed], [startCount] and [filterClicks], and a
    non-negative [filterStartEvents]: stored records cannot add, drop,
    reorder or renumber counters. *)
Theorem hydrate_restores_five_counters (stored : Stored) (s0 : State) :
  hydrate stored initialState = Restored s0 ->
  isHydrated s0 = true /\
  map id (counters s0) = [1; 2; 3; 4; 5] /\
  Forall nonNegativeFields (counters s0) /\
  0 <= filterStartEvents s0.
Proof.
  intros H. exact (wellFormed_hydrate stored s0 H).
Qed.

Lemma hydrate_restores_five_counters_witness :
  exists s0,
    hydrate (StoredJson negativeEverywhere) initialState = Restored s0 /\
    map id (counters s0) = [1; 2; 3; 4; 5] /\
    0 <= filterStartEvents s0.
Proof.
  eexists. split; [reflexivity|].
  destruct (hydrate_restores_five_counters (StoredJson negativeEverywhere) _
              eq_refl) as [_ [Hids [_ Hf]]].
  split; [exact Hids | exact Hf].
Defined.

(** ** Before hydration *)

(** X15. Until the engine is hydrated, ticks of both intervals and the
    alarm effect change nothing and log nothing, in any number and order,
    and the persist effect writes nothing. *)
Theorem nothing_runs_before_hydration (evs : list Event) (s : State) :
  isHydrated s = false ->
  Forall (fun e => e = EvGlobalTick \/ e = EvCounterTick \/ e = EvAlarmEffect)
         evs ->
  run evs s = s /\ runLog evs s = [] /\ persistEffect (run evs s) = None.
Proof.
  intros Hh Hall.
  assert (Hstep : forall e,
             e = EvGlobalTick \/ e = EvCounterTick \/ e = EvAlarmEffect ->
             step e s = (s, [])).
  { intros e [-> | [-> | ->]]; simpl; unfold alarmEffect; rewrite Hh; reflexivity. }
  induction Hall as [|e evs He Hevs IH].
  - simpl. unfold persistEffect. rewrite Hh. auto.
  - rewrite run_cons, run_fields_log, (Hstep e He). simpl. exact IH.
Qed.

Lemma nothing_runs_before_hydration_witness :
  run [EvGlobalTick; EvAlarmEffect; EvCounterTick] initialState = initialState.
Proof.
  apply (nothing_runs_before_hydration
           [EvGlobalTick; EvAlarmEffect; EvCounterTick] initialState eq_refl).
  apply Forall_cons; [left; reflexivity|].
  apply Forall_cons; [right; right; reflexivity|].
  apply Forall_cons; [right; left; reflexivity|].
  apply Forall_nil.
Defined.

(** ** From activation to the alarm *)

(** X16. With the service running and [globalElapsed] below the interval,
    the alarm effect stays silent after [n] ticks as long as
    [globalElapsed + n] is below the interval, and fires (resetting the
    timer to 0 with the service still running) as soon as
    [globalElapsed + n] reaches it. *)
Theorem alarm_fires_after_enough_ticks (n : nat) (s : State) :
  isHydrated s = true ->
  globalRunning s = true ->
  globalElapsed s <= GLOBAL_ALARM_INTERVAL_SECONDS ->
  let s' := run (repeat EvGlobalTick n) s in
  (globalElapsed s + Z.of_nat n < GLOBAL_ALARM_INTERVAL_SECONDS ->
     alarmEffect s' = (s', [])) /\
  (GLOBAL_ALARM_INTERVAL_SECONDS <= globalElapsed s + Z.of_nat n ->
     snd (alarmEffect s') = alarmLog s /\
     globalElapsed (fst (alarmEffect s')) = 0 /\
     globalRunning (fst (alarmEffect s')) = true /\
     counters (fst (alarmEffect s')) = counters s).
Proof.
  intros Hh Hr Hle s'.
  destruct (repeat_globalTick n s Hh Hr Hle) as [Hg [Hc [Hf [Hr' [Hh' Ha]]]]].
  fold s' in Hg, Hc, Hf, Hr', Hh', Ha. clearbody s'.
  unfold alarmEffect. rewrite Hh', Hr'. simpl. split.
  - intros Hlt. replace (globalElapsed s' <? GLOBAL_ALARM_INTERVAL_SECONDS)
      with true by lia. reflexivity.
  - intros Hge. replace (globalElapsed s' <? GLOBAL_ALARM_INTERVAL_SECONDS)
      with false by lia.
    unfold alarmLog, stopLog. simpl soundRef. rewrite <- Ha, <- Hc.
    destruct s' as [ge gr cs hy fse ar fr]. unfold_handlers. simpl in *.
    destruct ar; simpl; repeat split; assumption.
Qed.

Lemma alarm_fires_after_enough_ticks_witness :
  globalElapsed (fst (alarmEffect (run (repeat EvGlobalTick 1) aboutToAlarm))) = 0.
Proof.
  apply (alarm_fires_after_enough_ticks 1 aboutToAlarm eq_refl eq_refl).
  - vm_compute. discriminate.
  - vm_compute. discriminate.
Defined.

(** * Properties of the earlier revision *)

Ltac unfold_earlier :=
  unfold Earlier.handleToggleCounter, Earlier.handleClearCounter,
    Earlier.handleActivateGlobal, Earlier.handleConfirmResetAll,
    Earlier.resetAllYes, Earlier.activationYes, Earlier.alarmEffect,
    Earlier.alarmDialogOk, Earlier.globalTick, Earlier.counterTick,
    Earlier.playAlarmSound, Earlier.stopAlarmSound, Earlier.andThen,
    Earlier.emit, Earlier.skip, Earlier.setGlobalElapsed,
    Earlier.setGlobalRunning, Earlier.setCounters, Earlier.setIsHydrated,
    Earlier.putSoundRef in *.

Lemma earlier_run_invariant (P : Earlier.State -> Prop) (s0 : Earlier.State) :
  P s0 ->
  (forall e s, P s -> P (fst (Earlier.step e s))) ->
  forall evs, P (Earlier.run evs s0).
Proof.
  intros H0 Hstep evs. revert s0 H0.
  induction evs as [|e evs IH]; intros s0 H0; simpl.
  - exact H0.
  - apply IH. apply Hstep. exact H0.
Qed.

Lemma earlier_pause_all_idle (cs : list Earlier.CounterState) :
  existsb Earlier.isRunning (map Earlier.pauseCounter cs) = false.
Proof.
  induction cs as [|c cs IH]; simpl; auto.
Qed.

(** X17. In the earlier revision, when the alarm effect fires it stops the
    service and pauses every counter, keeping their elapsed times and
    leaving [globalElapsed] at the interval; it then vibrates, starts the
    looping sound and shows the non-cancelable dialog. Until the dialog is
    acknowledged the effect does not fire again and every counter toggle is
    rejected; acknowledging stops the sound, resets all five counters to
    their initial state, sets [globalElapsed] to 0 and restarts the
    service. *)
Theorem earlier_alarm_stops_then_restarts (s : Earlier.State) :
  Earlier.isHydrated s = true ->
  Earlier.globalRunning s = true ->
  GLOBAL_ALARM_INTERVAL_SECONDS <= Earlier.globalElapsed s ->
  let s1 := fst (Earlier.alarmEffect s) in
  let s2 := fst (Earlier.alarmDialogOk s1) in
  Earlier.globalRunning s1 = false /\
  Earlier.globalElapsed s1 = Earlier.globalElapsed s /\
  Earlier.counters s1 = map Earlier.pauseCounter (Earlier.counters s) /\
  Earlier.isAnyCounterRunning s1 = false /\
  snd (Earlier.alarmEffect s) =
    [Earlier.SetState Earlier.VarGlobalRunning;
     Earlier.SetState Earlier.VarCounters;
     Earlier.Vibrate [0; 500; 200; 500]] ++
    (if Earlier.alarmSoundRef s
     then [Earlier.SoundStop; Earlier.SoundUnload] else []) ++
    [Earlier.SoundCreate true; Earlier.SoundSetVolume 1; Earlier.SoundPlay;
     Earlier.AlertShow Earlier.alarmDialog] /\
  Earlier.alarmEffect s1 = (s1, []) /\
  (forall i, Earlier.handleToggleCounter i s1 =
             (s1, [Earlier.AlertShow Earlier.serviceInactiveDialog])) /\
  Earlier.counters s2 = Earlier.createInitialCounters /\
  Earlier.globalElapsed s2 = 0 /\
  Earlier.globalRunning s2 = true /\
  Earlier.alarmSoundRef s2 = false.
Proof.
  intros Hh Hr Hge.
  destruct s as [ge gr cs hy ar]. simpl in Hh, Hr, Hge. subst.
  unfold Earlier.isAnyCounterRunning.
  unfold_earlier. simpl.
  replace (ge <? GLOBAL_ALARM_INTERVAL_SECONDS) with false by lia.
  destruct ar; simpl; rewrite earlier_pause_all_idle; repeat split.
Qed.

Lemma earlier_alarm_stops_then_restarts_witness :
  Earlier.counters (fst (Earlier.alarmEffect Earlier.atInterval)) =
  [ Earlier.mkCounter 1 0 false true 0;
    Earlier.mkCounter 2 120 false false 1;
    Earlier.mkCounter 3 0 false true 0;
    Earlier.mkCounter 4 0 false true 0;
    Earlier.mkCounter 5 45 false false 1 ].
Proof.
  apply (earlier_alarm_stops_then_restarts Earlier.atInterval eq_refl eq_refl).
  vm_compute. discriminate.
Defined.

Lemma earlier_toggleCounter_id (i : Z) (c : Earlier.CounterState) :
  Earlier.id (Earlier.toggleCounter i c) = Earlier.id c.
Proof.
  unfold Earlier.toggleCounter.
  destruct (Earlier.id c =? i); simpl; [|reflexivity].
  destruct (Earlier.isRunning c); reflexivity.
Qed.

Lemma earlier_clearCounter_id (i : Z) (c : Earlier.CounterState) :
  Earlier.id (Earlier.clearCounter i c) = Earlier.id c.
Proof.
  unfold Earlier.clearCounter. destruct (Earlier.id c =? i); reflexivity.
Qed.

Lemma earlier_tickCounter_id (c : Earlier.CounterState) :
  Earlier.id (Earlier.tickCounter c) = Earlier.id c.
Proof.
  unfold Earlier.tickCounter. destruct (Earlier.isRunning c); reflexivity.
Qed.

Lemma earlier_find_map (f : Earlier.CounterState -> Earlier.CounterState)
      (i : Z) (cs : list Earlier.CounterState) :
  (forall c, Earlier.id (f c) = Earlier.id c) ->
  find (fun c => Earlier.id c =? i) (map f cs) =
  option_map f (find (fun c => Earlier.id c =? i) cs).
Proof.
  intros Hid. induction cs as [|c cs IH]; simpl; [reflexivity|].
  rewrite Hid. destruct (Earlier.id c =? i); [reflexivity | exact IH].
Qed.





Lemma earlier_map_id_preserved (f : Earlier.CounterState -> Earlier.CounterState)
      (cs : list Earlier.CounterState) :
  (forall c, Earlier.id (f c) = Earlier.id c) ->
  map Earlier.id (map f cs) = map Earlier.id cs.
Proof.
  intros H. rewrite map_map. apply map_ext. exact H.
Qed.

Lemma earlier_existsb_isRunning_map
      (f : Earlier.CounterState -> Earlier.CounterState)
      (cs : list Earlier.CounterState) :
  (forall c, Earlier.isRunning (f c) = true -> Earlier.isRunning c = true) ->
  existsb Earlier.isRunning (map f cs) = true ->
  existsb Earlier.isRunning cs = true.
Proof.
  intros Hf. induction cs as [|c cs IH]; simpl; [auto|].
  intros H. apply orb_true_iff in H. apply orb_true_iff.
  destruct H as [H|H]; [left; auto | right; auto].
Qed.

Lemma earlier_shape_initial :
  Forall (fun c => Earlier.startCountInCycle c /\ 0 <= Earlier.elapsed c /\
                   (Earlier.isEmpty c = true ->
                    Earlier.elapsed c = 0 /\ Earlier.isRunning c = false))
         Earlier.createInitialCounters.
Proof.
  unfold Earlier.createInitialCounters. simpl.
  repeat (apply Forall_cons;
          [unfold Earlier.startCountInCycle; simpl;
           split; [left; reflexivity | split; [lia | auto]] |]).
  apply Forall_nil.
Qed.

Lemma earlier_shape_tick (c : Earlier.CounterState) :
  Earlier.startCountInCycle c /\ 0 <= Earlier.elapsed c /\
  (Earlier.isEmpty c = true ->
   Earlier.elapsed c = 0 /\ Earlier.isRunning c = false) ->
  let c' := Earlier.tickCounter c in
  Earlier.startCountInCycle c' /\ 0 <= Earlier.elapsed c' /\
  (Earlier.isEmpty c' = true ->
   Earlier.elapsed c' = 0 /\ Earlier.isRunning c' = false).
Proof.
  unfold Earlier.tickCounter, Earlier.startCountInCycle.
  destruct (Earlier.isRunning c) eqn:E; simpl; [|rewrite E; tauto].
  intros [Hs [He Hem]]. repeat split; try assumption; try lia; discriminate.
Qed.

Lemma earlier_shape_toggle (i : Z) (c : Earlier.CounterState) :
  Earlier.startCountInCycle c /\ 0 <= Earlier.elapsed c /\
  (Earlier.isEmpty c = true ->
   Earlier.elapsed c = 0 /\ Earlier.isRunning c = false) ->
  let c' := Earlier.toggleCounter i c in
  Earlier.startCountInCycle c' /\ 0 <= Earlier.elapsed c' /\
  (Earlier.isEmpty c' = true ->
   Earlier.elapsed c' = 0 /\ Earlier.isRunning c' = false).
Proof.
  unfold Earlier.toggleCounter, Earlier.startCountInCycle.
  destruct (Earlier.id c =? i); simpl; [|tauto].
  destruct (Earlier.isRunning c) eqn:E; simpl; intros [Hs [He Hem]].
  - split; [assumption|]. split; [assumption|].
    intros H. destruct (Hem H). discriminate.
  - split; [|split; [assumption | discriminate]].
    destruct (Earlier.startCount c + 1 >=? 2) eqn:Ec; lia.
Qed.

Lemma earlier_shape_clear (i : Z) (c : Earlier.CounterState) :
  Earlier.startCountInCycle c /\ 0 <= Earlier.elapsed c /\
  (Earlier.isEmpty c = true ->
   Earlier.elapsed c = 0 /\ Earlier.isRunning c = false) ->
  let c' := Earlier.clearCounter i c in
  Earlier.startCountInCycle c' /\ 0 <= Earlier.elapsed c' /\
  (Earlier.isEmpty c' = true ->
   Earlier.elapsed c' = 0 /\ Earlier.isRunning c' = false).
Proof.
  unfold Earlier.clearCounter, Earlier.startCountInCycle.
  destruct (Earlier.id c =? i); simpl; [|tauto].
  intros [Hs _]. split; [assumption|]. split; [lia | auto].
Qed.

Lemma earlier_shape_pause (c : Earlier.CounterState) :
  Earlier.startCountInCycle c /\ 0 <= Earlier.elapsed c /\
  (Earlier.isEmpty c = true ->
   Earlier.elapsed c = 0 /\ Earlier.isRunning c = false) ->
  let c' := Earlier.pauseCounter c in
  Earlier.startCountInCycle c' /\ 0 <= Earlier.elapsed c' /\
  (Earlier.isEmpty c' = true ->
   Earlier.elapsed c' = 0 /\ Earlier.isRunning c' = false).
Proof.
  unfold Earlier.pauseCounter, Earlier.startCountInCycle. simpl.
  intros [Hs [He Hem]]. split; [assumption|]. split; [assumption|].
  intros H. destruct (Hem H). auto.
Qed.

Lemma earlier_reachedShape_fresh : Earlier.reachedShape Earlier.freshState.
Proof.
  unfold Earlier.reachedShape. split; [reflexivity|]. split; [reflexivity|].
  split; [exact earlier_shape_initial|].
  split; [rewrite interval_value; simpl; lia | discriminate].
Qed.

Lemma earlier_tickCounter_running (c : Earlier.CounterState) :
  Earlier.isRunning (Earlier.tickCounter c) = true -> Earlier.isRunning c = true.
Proof.
  unfold Earlier.tickCounter. destruct (Earlier.isRunning c) eqn:E; simpl; auto.
  rewrite E. auto.
Qed.

Lemma earlier_clearCounter_running (i : Z) (c : Earlier.CounterState) :
  Earlier.isRunning (Earlier.clearCounter i c) = true ->
  Earlier.isRunning c = true.
Proof.
  unfold Earlier.clearCounter. destruct (Earlier.id c =? i); simpl;
    [discriminate | auto].
Qed.

Lemma earlier_reachedShape_step (e : Earlier.Event) (s : Earlier.State) :
  Earlier.reachedShape s -> Earlier.reachedShape (fst (Earlier.step e s)).
Proof.
  unfold Earlier.reachedShape, Earlier.isAnyCounterRunning.
  rewrite interval_value. intros [Hh [Hids [Hsh [Hge Hrun]]]].
  destruct e; simpl.
  8: { unfold Earlier.handleToggleCounter.
       destruct (Earlier.globalRunning s) eqn:Hg; simpl.
       - destruct (Earlier.alertCounterId i (Earlier.counters s));
           destruct s as [ge gr cs hy ar]; unfold_earlier; simpl in *;
           (split; [assumption|]);
           (split; [rewrite earlier_map_id_preserved;
                    [assumption | intros c; apply earlier_toggleCounter_id]|]);
           (split; [apply Forall_map_preserved;
                    [intros c; apply earlier_shape_toggle | assumption]|]);
           split; auto.
       - rewrite Hg. auto. }
  all: destruct s as [ge gr cs hy ar]; unfold_earlier; simpl in *;
    split_ifs; rewrite ?interval_value in *;
    repeat match goal with |- _ /\ _ => split end;
    first
      [ assumption
      | reflexivity
      | lia
      | exact earlier_shape_initial
      | rewrite earlier_map_id_preserved;
        [assumption
        | intros c; first [apply earlier_tickCounter_id
                          | apply earlier_clearCounter_id
                          | reflexivity]]
      | apply Forall_map_preserved;
        [intros c; first [apply earlier_shape_tick
                         | apply earlier_shape_clear
                         | apply earlier_shape_pause]
        | assumption]
      | rewrite earlier_pause_all_idle; discriminate
      | intros H; first
          [ discriminate
          | reflexivity
          | apply Hrun; eapply earlier_existsb_isRunning_map; [|exact H];
            intros c; first
              [ apply earlier_tickCounter_running
              | apply earlier_clearCounter_running ]
          | auto ] ].
Qed.

Lemma earlier_reachedShape_run (evs : list Earlier.Event) :
  Earlier.reachedShape (Earlier.run evs Earlier.freshState).
Proof.
  apply earlier_run_invariant.
  - exact earlier_reachedShape_fresh.
  - intros e s. apply earlier_reachedShape_step.
Qed.

(** X19. In the earlier revision, after every sequence of events from first
    launch: the five counters 1..5 are in place, every [startCount] is 0
    or 1, no elapsed time is negative, an empty counter has elapsed 0 and
    is not running, [globalElapsed] lies within
    [0, GLOBAL_ALARM_INTERVAL_SECONDS], and a counter runs only while the
    service is active. *)
Theorem earlier_reached_states_shape (evs : list Earlier.Event) :
  Earlier.reachedShape (Earlier.run evs Earlier.freshState).
Proof.
  exact (earlier_reachedShape_run evs).
Qed.

(** X20. In the earlier revision, clearing a counter empties it but keeps
    its [startCount], leaving timer and service flag as they are: started
    again, the cleared counter carries on the count of starts, storing
    [startCount + 1], or 0 when that reaches 2, with elapsed 0. *)
Theorem earlier_clear_then_start_carries_start_count (s : Earlier.State) (i : Z)
        (target : Earlier.CounterState) :
  Earlier.globalRunning s = true ->
  find (fun c => Earlier.id c =? i) (Earlier.counters s) = Some target ->
  let s1 := fst (Earlier.handleClearCounter i s) in
  let s2 := fst (Earlier.handleToggleCounter i s1) in
  find (fun c => Earlier.id c =? i) (Earlier.counters s1)
    = Some (Earlier.mkCounter i 0 false true (Earlier.startCount target)) /\
  Earlier.globalElapsed s1 = Earlier.globalElapsed s /\
  Earlier.globalRunning s1 = Earlier.globalRunning s /\
  find (fun c => Earlier.id c =? i) (Earlier.counters s2)
    = Some (Earlier.mkCounter i 0 true false
              (if Earlier.startCount target + 1 >=? 2 then 0
               else Earlier.startCount target + 1)).
Proof.
  intros Hrun Hfind s1 s2.
  assert (Hid : Earlier.id target = i).
  { apply find_some in Hfind. lia. }
  assert (Hf1 : find (fun c => Earlier.id c =? i) (Earlier.counters s1)
                = Some (Earlier.mkCounter i 0 false true
                          (Earlier.startCount target))).
  { subst s1. simpl.
    rewrite earlier_find_map by (intros c; apply earlier_clearCounter_id).
    rewrite Hfind. simpl. unfold Earlier.clearCounter.
    rewrite Hid, Z.eqb_refl. reflexivity. }
  split; [exact Hf1|]. split; [reflexivity|]. split; [reflexivity|].
  assert (Hrun1 : Earlier.globalRunning s1 = true) by exact Hrun.
  subst s2. unfold Earlier.handleToggleCounter. rewrite Hrun1.
  cbn [negb]. unfold Earlier.andThen, Earlier.setCounters, Earlier.skip.
  cbn [fst Earlier.counters].
  rewrite earlier_find_map by (intros c; apply earlier_toggleCounter_id).
  rewrite Hf1. simpl. unfold Earlier.toggleCounter. simpl.
  rewrite Z.eqb_refl. reflexivity.
Qed.

Lemma earlier_clear_then_start_carries_start_count_witness :
  find (fun c => Earlier.id c =? 5)
       (Earlier.counters
          (fst (Earlier.handleToggleCounter 5
                  (fst (Earlier.handleClearCounter 5 Earlier.atInterval)))))
  = Some (Earlier.mkCounter 5 0 true false 0).
Proof.
  apply (earlier_clear_then_start_carries_start_count Earlier.atInterval 5
           (Earlier.mkCounter 5 45 false false 1) eq_refl eq_refl).
Defined.

(** ** Stores written by the earlier revision *)

Lemma earlier_findPersisted_counterJson (cs : list Earlier.CounterState) (i : Z) :
  findPersisted (map Earlier.counterJson cs) i =
  match find (fun c => Earlier.id c =? i) cs with
  | Some c => Found (Earlier.counterJson c)
  | None => Missing
  end.
Proof.
  induction cs as [|c cs IH]; simpl; [reflexivity|].
  destruct (Earlier.id c =? i); [reflexivity | exact IH].
Qed.

Lemma earlier_hydrateCounter_same (c initial : Earlier.CounterState) :
  0 <= Earlier.elapsed c -> 0 <= Earlier.startCount c ->
  Earlier.id initial = Earlier.id c ->
  Earlier.hydrateCounter (Earlier.counterJson c) initial = c.
Proof.
  intros He Hs Hid.
  unfold Earlier.hydrateCounter, Earlier.counterJson, asNonNegative. simpl.
  replace (Earlier.elapsed c >=? 0) with true by lia.
  replace (Earlier.startCount c >=? 0) with true by lia.
  destruct c; simpl in *. now rewrite Hid.
Qed.

Lemma upgraded_from_counterJson (c : Earlier.CounterState) (initial : CounterState) :
  0 <= Earlier.elapsed c -> 0 <= Earlier.startCount c ->
  id initial = Earlier.id c ->
  lastPauseTimestamp initial = None ->
  filterClicks initial = 0 ->
  hydrateCounter (Earlier.counterJson c) initial = upgraded c.
Proof.
  intros He Hs Hid Hl Hf.
  unfold hydrateCounter, Earlier.counterJson, upgraded, asNonNegative. simpl.
  replace (Earlier.elapsed c >=? 0) with true by lia.
  replace (Earlier.startCount c >=? 0) with true by lia.
  simpl. now rewrite Hid, Hl, Hf.
Qed.

Lemma earlier_five_counters (s : Earlier.State) :
  Earlier.reachedShape s ->
  exists c1 c2 c3 c4 c5,
    Earlier.counters s = [c1; c2; c3; c4; c5] /\
    (Earlier.id c1 = 1 /\ 0 <= Earlier.elapsed c1 /\ 0 <= Earlier.startCount c1) /\
    (Earlier.id c2 = 2 /\ 0 <= Earlier.elapsed c2 /\ 0 <= Earlier.startCount c2) /\
    (Earlier.id c3 = 3 /\ 0 <= Earlier.elapsed c3 /\ 0 <= Earlier.startCount c3) /\
    (Earlier.id c4 = 4 /\ 0 <= Earlier.elapsed c4 /\ 0 <= Earlier.startCount c4) /\
    (Earlier.id c5 = 5 /\ 0 <= Earlier.elapsed c5 /\ 0 <= Earlier.startCount c5).
Proof.
  intros [_ [Hids [Hsh _]]].
  destruct (Earlier.counters s) as [|c1 [|c2 [|c3 [|c4 [|c5 [|c6 cs]]]]]];
    try discriminate.
  simpl in Hids. injection Hids as H1 H2 H3 H4 H5.
  inversion Hsh as [|? ? N1 Hsh1]; subst.
  inversion Hsh1 as [|? ? N2 Hsh2]; subst.
  inversion Hsh2 as [|? ? N3 Hsh3]; subst.
  inversion Hsh3 as [|? ? N4 Hsh4]; subst.
  inversion Hsh4 as [|? ? N5 _]; subst.
  unfold Earlier.startCountInCycle in *.
  exists c1, c2, c3, c4, c5. split; [reflexivity|].
  repeat split; try assumption; try tauto; lia.
Qed.

(** X21. In the earlier revision, for every state reached from first launch
    the persist effect writes the payload of the state, and a new process
    rehydrating from it restores the same timer, service flag and
    counters. *)
Theorem earlier_persist_rehydrate_roundtrip (evs : list Earlier.Event) :
  let s := Earlier.run evs Earlier.freshState in
  Earlier.persistEffect s = Some (Earlier.payload s) /\
  Earlier.hydrate (StoredJson (Earlier.payload s)) Earlier.initialState =
  Earlier.Restored
    {| Earlier.globalElapsed := Earlier.globalElapsed s;
       Earlier.globalRunning := Earlier.globalRunning s;
       Earlier.counters := Earlier.counters s;
       Earlier.isHydrated := true;
       Earlier.alarmSoundRef := false |}.
Proof.
  intros s. pose proof (earlier_reachedShape_run evs) as Hshape.
  fold s in Hshape. clearbody s.
  destruct (earlier_five_counters s Hshape)
    as (c1 & c2 & c3 & c4 & c5 & Hcs & (I1 & Ea1 & Sa1) & (I2 & Ea2 & Sa2) &
        (I3 & Ea3 & Sa3) & (I4 & Ea4 & Sa4) & (I5 & Ea5 & Sa5)).
  destruct Hshape as [Hh _].
  split.
  - unfold Earlier.persistEffect. now rewrite Hh.
  - unfold Earlier.hydrate, Earlier.payload, Earlier.restoreCounters.
    rewrite Hcs. simpl. rewrite I1, I2, I3, I4, I5. simpl.
    rewrite !earlier_hydrateCounter_same by (simpl; auto).
    reflexivity.
Qed.

(** X22. The later revision reading a store written by the earlier one
    (same storage key), for every state the earlier engine reaches from
    first launch: timer, service flag and each counter's identity, elapsed
    time, flags and [startCount] are taken over; [lastPauseTimestamp] is
    absent, [filterClicks] and [filterStartEvents] are 0. In the restored
    state, resuming a counter that was paused and not empty is not a
    qualifying start, whatever the time, and its debug delay shows the
    dash. *)
Theorem later_reads_earlier_store (evs : list Earlier.Event) :
  let s := Earlier.run evs Earlier.freshState in
  let s' :=
    {| globalElapsed := Earlier.globalElapsed s;
       globalRunning := Earlier.globalRunning s;
       counters := map upgraded (Earlier.counters s);
       isHydrated := true;
       filterStartEvents := 0;
       alarmSoundRef := false;
       filterSoundRef := false |} in
  hydrate (StoredJson (Earlier.payload s)) initialState = Restored s' /\
  forall i now target,
    findCounter i (counters s') = Some target ->
    isRunning target = false ->
    isEmpty target = false ->
    allowFilterIncrementPrecomputed i now s' = false /\
    secondsRemainingDisplay now target = RemainingDash.
Proof.
  intros s s'. pose proof (earlier_reachedShape_run evs) as Hshape.
  fold s in Hshape. subst s'. clearbody s.
  destruct (earlier_five_counters s Hshape)
    as (c1 & c2 & c3 & c4 & c5 & Hcs & (I1 & Ea1 & Sa1) & (I2 & Ea2 & Sa2) &
        (I3 & Ea3 & Sa3) & (I4 & Ea4 & Sa4) & (I5 & Ea5 & Sa5)).
  split.
  - unfold hydrate, Earlier.payload, restoreCounters.
    rewrite Hcs. simpl. rewrite I1, I2, I3, I4, I5. simpl.
    rewrite !upgraded_from_counterJson by (simpl; auto).
    reflexivity.
  - intros i now target Hfind Hr He.
    assert (Hl : lastPauseTimestamp target = None).
    { apply findCounter_In in Hfind. simpl in Hfind.
      apply in_map_iff in Hfind. destruct Hfind as [c [<- _]]. reflexivity. }
    split.
    + unfold allowFilterIncrementPrecomputed. rewrite Hfind, Hr, He, Hl.
      reflexivity.
    + unfold secondsRemainingDisplay. rewrite Hr, He, Hl. reflexivity.
Qed.
